(** * easyBuy: a shallow embedding of [src/index.js]

    The server is an Express application over one Mongoose collection of
    users.  Every route handler is embedded as a function from the stored
    collection and the request to the response and the collection after
    the request: a handler that answers before [user.save()] gives the
    collection back untouched, one that reaches [user.save()] writes the
    whole user document, unless the schema refuses it, in which case the
    answer is 500 and nothing is written.

    Conventions of the embedding:
    - JS arrays are lists, in order; [Array.prototype.find] is stdpp's
      [list_find], whose index stands for the reference that the source
      then mutates in place;
    - the catalog objects used as dictionaries are [gmap string _]; a
      read [table[key]] with a key taken from the request also finds the
      members that every object inherits from [Object.prototype]: the
      order handlers read with [property], and the loop of POST /cart is
      embedded for the product identifiers that are no such member names;
    - prices, fees, discounts and quantities are whole amounts that a
      double holds exactly ([Z]); the totals that the order handlers
      compute from them are JS Numbers, that is doubles ([number]): each
      sum and product is rounded to the nearest double.  The quantities of
      a cart are added as whole numbers, which is what doubles do up to
      [2 ^ 53];
    - [req.body.rating] is kept as sent ([RatingValue]): the source
      coerces it in the guard and reads its text in [parseInt];
    - a sub-document path declared by a nested object in the schema
      ([review]) is always an object when read, never [undefined];
    - [jsonwebtoken], [bcrypt], [new Date()] and the [ObjectId] generator
      are outside the repository: they are section variables or explicit
      arguments of the handlers. *)

From Stdlib Require Import ZArith QArith Qround Ascii.
From stdpp Require Import gmap strings list pretty.

Local Open Scope string_scope.
Local Open Scope list_scope.
Local Open Scope Z_scope.

(** ** Schemas *)

Definition ObjectId := string.
Definition Token := string.
Definition Date := Z.
Definition Buffer := list Byte.byte.

(** An entry of [fakeProductDatabase]: the fields of the catalog record
    that the product sub-schema keeps. *)
Record ProductInfo := mkProductInfo {
  info_name : string;
  info_imageUrl : string;
  info_price : Z
}.

(** [{ productId, name, imageUrl, price, quantity }], the element type of
    both [cart.products] and [order.products]. *)
Record Product := mkProduct {
  productId : string;
  name : string;
  imageUrl : string;
  price : Z;
  quantity : Z
}.

Record Coupon := mkCoupon {
  code : string;
  discount : Z
}.

Record ShippingData := mkShippingData {
  shippingMethod : string;
  ShippingFee : Z
}.

(** [review: { comment, rating, imageFiles }], a nested path of the order
    schema: Mongoose always reads it as an object, whose [comment] and
    [rating] are [undefined] (here [None]) and whose [imageFiles] is the
    empty array until they are written. *)
Record Review := mkReview {
  comment : option string;
  rating : option Z;
  imageFiles : list Buffer
}.

(** What [order.review] reads on an order that was never reviewed, or
    after [order.review = undefined]. *)
Definition empty_review : Review := mkReview None None [].

(** A JS Number whose value is whole, an infinity, or [NaN]. *)
Inductive number :=
| Finite (z : Z)
| Infinite (negative : bool)
| NaN.

Record Order := mkOrder {
  order_id : ObjectId;
  order_products : list Product;
  order_shippingMethod : option string;
  order_createdAt : Date;
  order_totalAmount : number;
  order_shippingFee : option Z;
  order_coupon : option Coupon;
  order_review : Review
}.

Record User := mkUser {
  user_id : ObjectId;
  email : string;
  password : string;
  orders : list Order;
  cart : list Product;
  refreshTokens : list Token
}.

Global Instance ProductInfo_eq_dec : EqDecision ProductInfo.
Proof. solve_decision. Defined.
Global Instance Product_eq_dec : EqDecision Product.
Proof. solve_decision. Defined.
Global Instance Coupon_eq_dec : EqDecision Coupon.
Proof. solve_decision. Defined.

(** ** The collection *)

(** The [users] collection, in natural order. *)
Abbreviation Db := (list User).

Definition findById (db : Db) (id : ObjectId) : option User :=
  snd <$> list_find (λ u, user_id u = id) db.

(** [User.findOne({ email })] *)
Definition findOne_email (db : Db) (e : string) : option User :=
  snd <$> list_find (λ u, email u = e) db.

(** [User.findOne({ refreshTokens: token })]: the first document whose
    array contains the token. *)
Definition findOne_refreshTokens (db : Db) (token : Token) : option User :=
  snd <$> list_find (λ u, token ∈ refreshTokens u) db.

(** [user.save()] writes the document back under its [_id]. *)
Definition save (u : User) (db : Db) : Db :=
  (λ v, if decide (user_id v = user_id u) then u else v) <$> db.

(** ** Responses *)

Inductive Body :=
| NoBody
| Message (message : string)
| Tokens (accessToken refreshToken : Token)
| CartUpdated (message : string) (cart : list Product)
| OrderCreated (message : string) (orderId : ObjectId)
| Image (contentType : string) (data : Buffer)
| ServerError (message : string)
| ErrorPage.

Record Response := mkResponse {
  status : Z;
  body : Body
}.

(** [res.sendStatus(c)], [res.status(c).json({ message })], [res.json(b)] *)
Definition sendStatus (c : Z) : Response := mkResponse c NoBody.
Definition status_json (c : Z) (m : string) : Response := mkResponse c (Message m).
Definition json (b : Body) : Response := mkResponse 200 b.

(** A request either ended in a 2xx answer or in an error answer. *)
Definition succeeded (r : Response) : Prop := status r = 200.
Definition failed (r : Response) : Prop := (400 ≤ status r)%Z.

(** The error kinds of the specification, as the answers the source sends. *)
Definition InvalidProduct (pid : string) : Response :=
  status_json 400 ("Invalid productId: " +:+ pid).
Definition InvalidShipping (sid : string) : Response :=
  status_json 400 ("Invalid shippingId: " +:+ sid).
Definition InvalidRating : Response :=
  status_json 400 "Rating must be a number from 1 to 5".
Definition AlreadyExists : Response :=
  status_json 400 "Review already exists".
Definition InvalidQuantity : Response :=
  status_json 400 "Invalid quantity".

(** [res.status(500).json({ message: 'Server error', error: err.message })]
    in the [catch] of POST /order/:orderId/review; the [error] field is
    the text that Mongoose gives its rejection and is not kept. *)
Definition caught : Response := mkResponse 500 (ServerError "Server error").

(** A rejected [await user.save()] in a handler without [try]: the
    rejection goes to the error handling of Express, which answers 500
    with its own page. *)
Definition save_rejected : Response := mkResponse 500 ErrorPage.

(** A header or body field holding a string: absent and empty are both
    falsy for [if (!token)]. *)
Definition truthy (s : option string) : option string :=
  match s with
  | Some "" => None
  | _ => s
  end.

(** ** Token service: /register, /login, /refresh, /logout *)

(** The libraries the token service calls, and the two secrets of
    [process.env].  [jwt_sign id secret expiresIn now] is
    [jwt.sign({ id }, secret, { expiresIn })] called when the clock reads
    [now] seconds: the library signs the payload [{ id, iat: now }] (and
    [exp] when [expiresIn] is given) with the secret, and nothing else
    enters the token.  [jwt_verify token secret now] is
    [jwt.verify(token, secret)], the decoded [id] or an error. *)
Record Crypto := mkCrypto {
  ACCESS_TOKEN_SECRET : string;
  REFRESH_TOKEN_SECRET : string;
  jwt_sign : ObjectId → string → option Z → Date → Token;
  jwt_verify : Token → string → Date → option ObjectId;
  bcrypt_hash : string → string;
  bcrypt_compare : string → string → bool
}.

Definition set_refreshTokens (u : User) (ts : list Token) : User :=
  mkUser (user_id u) (email u) (password u) (orders u) (cart u) ts.

Definition set_cart (u : User) (c : list Product) : User :=
  mkUser (user_id u) (email u) (password u) (orders u) c (refreshTokens u).

Definition set_orders (u : User) (os : list Order) : User :=
  mkUser (user_id u) (email u) (password u) os (cart u) (refreshTokens u).

Section TokenService.

Variable lib : Crypto.

Definition generateAccessToken (id : ObjectId) (now : Date) : Token :=
  jwt_sign lib id (ACCESS_TOKEN_SECRET lib) (Some (15 * 60)) now.

Definition generateRefreshToken (id : ObjectId) (now : Date) : Token :=
  jwt_sign lib id (REFRESH_TOKEN_SECRET lib) None now.

(** [app.post('/register')]; [oid] is the [_id] of the new document,
    whose cart is the schema default [{ products: [] }]. *)
Definition post_register (db : Db) (e pw : option string) (oid : ObjectId)
  : Response * Db :=
  match truthy e, truthy pw with
  | Some e, Some pw =>
    match findOne_email db e with
    | Some existing => (status_json 400 "Email already registered", db)
    | None =>
      let hashed := bcrypt_hash lib pw in
      (json (Message "User registered"), db ++ [mkUser oid e hashed [] [] []])
    end
  | _, _ => (status_json 400 "Email and password required", db)
  end.

(** [app.post('/login')] *)
Definition post_login (db : Db) (e pw : string) (now : Date) : Response * Db :=
  match findOne_email db e with
  | None => (status_json 403 "Invalid credentials", db)
  | Some user =>
    if negb (bcrypt_compare lib pw (password user))
    then (status_json 403 "Invalid credentials", db)
    else
      let accessToken := generateAccessToken (user_id user) now in
      let refreshToken := generateRefreshToken (user_id user) now in
      let user := set_refreshTokens user (refreshTokens user ++ [refreshToken]) in
      (json (Tokens accessToken refreshToken), save user db)
  end.

(** [app.post('/refresh')]; [header] is [req.headers['x-refresh-token']]. *)
Definition post_refresh (db : Db) (header : option Token) (now : Date)
  : Response * Db :=
  match truthy header with
  | None => (sendStatus 401, db)
  | Some token =>
    match findOne_refreshTokens db token with
    | None => (sendStatus 403, db)
    | Some user =>
      match jwt_verify lib token (REFRESH_TOKEN_SECRET lib) now with
      | None => (sendStatus 403, db)
      | Some decoded_id =>
        let accessToken := generateAccessToken decoded_id now in
        let newRefreshToken := generateRefreshToken decoded_id now in
        let user :=
          set_refreshTokens user (filter (λ t, t ≠ token) (refreshTokens user)) in
        let user :=
          set_refreshTokens user (refreshTokens user ++ [newRefreshToken]) in
        (json (Tokens accessToken newRefreshToken), save user db)
      end
    end
  end.

(** [app.post('/logout')]; [body_token] is [req.body.token]. *)
Definition post_logout (db : Db) (body_token : option Token) : Response * Db :=
  match truthy body_token with
  | None => (sendStatus 400, db)
  | Some token =>
    match findOne_refreshTokens db token with
    | None => (sendStatus 403, db)
    | Some user =>
      let user :=
        set_refreshTokens user (filter (λ t, t ≠ token) (refreshTokens user)) in
      (json (Message "Logged out successfully"), save user db)
    end
  end.

End TokenService.

(** ** Numbers *)

(** The double nearest to a whole number, ties to the even significand.
    Up to [2 ^ 53] every whole number is a double; beyond, a double has
    53 significant bits. *)
Definition nearest_double (z : Z) : Z :=
  if Z.abs z <=? 2 ^ 53 then z
  else
    let e := Z.log2 (Z.abs z) - 52 in
    let m := Z.abs z / 2 ^ e in
    let r := Z.abs z mod 2 ^ e in
    let m :=
      if 2 * r <? 2 ^ e then m
      else if 2 ^ e <? 2 * r then m + 1
      else if Z.even m then m else m + 1 in
    Z.sgn z * (m * 2 ^ e).

(** The Number that an exact whole result becomes: rounded, and an
    infinity from [2 ^ 1024] on. *)
Definition to_number (z : Z) : number :=
  let d := nearest_double z in
  if 2 ^ 1024 <=? Z.abs d then Infinite (z <? 0) else Finite d.

(** [a + b], [- a], [a - b] and [a * b] on Numbers. *)
Definition js_add (a b : number) : number :=
  match a, b with
  | NaN, _ | _, NaN => NaN
  | Finite x, Finite y => to_number (x + y)
  | Infinite s, Infinite t => if bool_decide (s = t) then Infinite s else NaN
  | Infinite s, Finite _ | Finite _, Infinite s => Infinite s
  end.

Definition js_neg (a : number) : number :=
  match a with
  | Finite x => Finite (- x)
  | Infinite s => Infinite (negb s)
  | NaN => NaN
  end.

Definition js_sub (a b : number) : number := js_add a (js_neg b).

Definition js_mul (a b : number) : number :=
  match a, b with
  | NaN, _ | _, NaN => NaN
  | Finite x, Finite y => to_number (x * y)
  | Infinite s, Infinite t => Infinite (xorb s t)
  | Infinite s, Finite y | Finite y, Infinite s =>
    if decide (y = 0) then NaN else Infinite (xorb s (y <? 0))
  end.

(** A field that holds a number or is [undefined]: [undefined] becomes
    [NaN] in arithmetic. *)
Definition field_number (field : option Z) : number :=
  match field with
  | Some z => Finite z
  | None => NaN
  end.

(** ** Catalogs *)

(** [fakeCouponDatabase] *)
Definition fakeCouponDatabase : gmap string Coupon :=
  <["123" := mkCoupon "折扣20" 20]>
  (<["456" := mkCoupon "折扣100" 100]>
  (<["789" := mkCoupon "折扣200" 200]> ∅)).

(** [fakeShippingFeeDatabase] *)
Definition fakeShippingFeeDatabase : gmap string ShippingData :=
  <["123" := mkShippingData "超商" 60]>
  (<["456" := mkShippingData "宅配" 100]>
  (<["789" := mkShippingData "自取" 0]> ∅)).

(** The entry of a table under an [id] taken from the request body: a
    missing field names no entry. *)
Definition lookup_id {A} (table : gmap string A) (id : option string) : option A :=
  id ≫= (λ k, table !! k).

(** How a template literal, and a property key, print the field. *)
Definition show_id (id : option string) : string := default "undefined" id.

(** The names that every plain object inherits from [Object.prototype]. *)
Definition Object_prototype : list string :=
  [ "constructor"; "__defineGetter__"; "__defineSetter__"; "hasOwnProperty";
    "__lookupGetter__"; "__lookupSetter__"; "isPrototypeOf";
    "propertyIsEnumerable"; "toString"; "valueOf"; "__proto__";
    "toLocaleString" ].

(** What [table[key]] reads: an entry of the table, a member inherited
    from [Object.prototype] (a function, or the prototype itself under
    [__proto__]: truthy, and without any field of an entry), or
    [undefined]. *)
Inductive Property (A : Type) :=
| Own (entry : A)
| Inherited
| Absent.
Arguments Own {A} entry.
Arguments Inherited {A}.
Arguments Absent {A}.

Definition property {A} (table : gmap string A) (key : string) : Property A :=
  match table !! key with
  | Some entry => Own entry
  | None => if decide (key ∈ Object_prototype) then Inherited else Absent
  end.

(** [value.field] of what was read: [undefined] on an inherited member. *)
Definition own {A} (value : Property A) : option A :=
  match value with
  | Own entry => Some entry
  | _ => None
  end.

(** An element of [req.body.products]: [{ productId, quantity }]. *)
Record Line := mkLine {
  line_productId : string;
  line_quantity : Z
}.

(** [{ ...info, productId: p.productId, quantity: p.quantity }] *)
Definition fullProduct (info : ProductInfo) (p : Line) : Product :=
  mkProduct (line_productId p) (info_name info) (info_imageUrl info)
            (info_price info) (line_quantity p).

Definition set_quantity (item : Product) (q : Z) : Product :=
  mkProduct (productId item) (name item) (imageUrl item) (price item) q.

(** ** Cart manager: POST /cart, DELETE /cart, PUT /cart/:productId *)

Section Store.

(** [fakeProductDatabase] is fetched at start-up; its content is a
    parameter of the handlers. *)
Variable fakeProductDatabase : gmap string ProductInfo.

(** The [for (const p of products)] loop of POST /cart over the cart of
    the loaded document.  [inl pid] is the early [return] on the first
    [productId] without catalog entry; [existing] is the element that
    [find] returned, updated where it sits.  The loop is that of a
    request whose [productId]s are no member names of [Object.prototype]:
    under such a name the source finds the inherited member and keeps an
    entry without name, image and price, which [Product] has no value
    for. *)
Fixpoint cart_loop (products : list Line) (cart_products : list Product)
  : string + list Product :=
  match products with
  | [] => inr cart_products
  | p :: products =>
    match fakeProductDatabase !! line_productId p with
    | None => inl (line_productId p)
    | Some info =>
      match list_find (λ item, productId item = line_productId p) cart_products with
      | Some (i, existing) =>
        cart_loop products
          (<[i := set_quantity existing (quantity existing + line_quantity p)]>
             cart_products)
      | None =>
        cart_loop products (cart_products ++ [fullProduct info p])
      end
    end
  end.

(** [app.post('/cart')], after [authenticateToken] put the caller's id
    in [req.user.id]. *)
Definition post_cart (db : Db) (req_user_id : ObjectId) (products : list Line)
  : Response * Db :=
  match products with
  | [] => (status_json 400 "Products required", db)
  | _ =>
    match findById db req_user_id with
    | None => (status_json 404 "User not found", db)
    | Some user =>
      match cart_loop products (cart user) with
      | inl pid => (InvalidProduct pid, db)
      | inr cart_products =>
        let user := set_cart user cart_products in
        (json (CartUpdated "Add to cart successfully" (cart user)), save user db)
      end
    end
  end.

(** [app.delete('/cart')] *)
Definition delete_cart (db : Db) (req_user_id : ObjectId) (productIds : list string)
  : Response * Db :=
  match productIds with
  | [] => (status_json 400 "productIds must be a non-empty array", db)
  | _ =>
    match findById db req_user_id with
    | None => (status_json 404 "User not found", db)
    | Some user =>
      let originalCount := length (cart user) in
      let cart_products := filter (λ p, productId p ∉ productIds) (cart user) in
      let deletedCount := (originalCount - length cart_products)%nat in
      if decide (deletedCount = 0%nat)
      then (status_json 404 "No matching products found in cart", db)
      else
        let user := set_cart user cart_products in
        (json (Message ("🗑️ Deleted " +:+ pretty deletedCount +:+ " product(s) from cart")),
         save user db)
    end
  end.

(** [app.put('/cart/:productId')]; [qty] is [req.body.quantity], [None]
    when it is not a number. *)
Definition put_cart (db : Db) (req_user_id : ObjectId) (params_productId : string)
    (qty : option Z) : Response * Db :=
  match qty with
  | None => (InvalidQuantity, db)
  | Some qty =>
    if decide (qty < 1) then (InvalidQuantity, db)
    else
      match findById db req_user_id with
      | None => (status_json 404 "User not found", db)
      | Some user =>
        match list_find (λ p, productId p = params_productId) (cart user) with
        | None => (status_json 404 "Product not in cart", db)
        | Some (i, item) =>
          let user := set_cart user (<[i := set_quantity item qty]> (cart user)) in
          (json (Message "Cart updated successfully"), save user db)
        end
      end
  end.

(** ** Order manager: POST /order, PUT /order/:orderId, DELETE /order/:orderId *)

(** The item loop shared by POST /order and PUT /order/:orderId: it
    pushes on [fullProducts] and adds to [totalAmount], and returns early
    on the first [productId] for which [fakeProductDatabase[p.productId]]
    is [undefined].  Under a member name of [Object.prototype] the read
    is truthy and [info.price] is [undefined]: the total is [NaN] from
    then on, and the item pushed for it, which has no name, image or
    price, is never stored. *)
Fixpoint order_loop (products : list Line) (fullProducts : list Product)
    (totalAmount : number) : string + (list Product * number) :=
  match products with
  | [] => inr (fullProducts, totalAmount)
  | p :: products =>
    match property fakeProductDatabase (line_productId p) with
    | Absent => inl (line_productId p)
    | Own info =>
      order_loop products (fullProducts ++ [fullProduct info p])
                 (js_add totalAmount
                    (js_mul (Finite (info_price info)) (Finite (line_quantity p))))
    | Inherited =>
      order_loop products fullProducts (js_add totalAmount NaN)
    end
  end.

(** [if (coupon?.discount) totalAmount -= coupon.discount] *)
Definition apply_coupon (coupon : option Coupon) (totalAmount : number) : number :=
  match coupon with
  | Some c =>
    if decide (discount c = 0) then totalAmount
    else js_sub totalAmount (Finite (discount c))
  | None => totalAmount
  end.

(** What the schema refuses of an order at [user.save()]: a [totalAmount]
    that is [NaN] does not cast to [Number]. *)
Definition total_refused (totalAmount : number) : bool :=
  match totalAmount with
  | NaN => true
  | _ => false
  end.

(** [app.post('/order')]; [now] is [new Date()], [oid] the [_id] given to
    the pushed sub-document.  An inherited member read as [shippingData]
    passes the guard and has neither [shippingMethod] nor [ShippingFee];
    one read as [coupon] has no [discount], and the pushed sub-document
    leaves the [coupon] path unset for it, as it does for [null]. *)
Definition post_order (db : Db) (req_user_id : ObjectId) (products : list Line)
    (couponId shippingId : option string) (now : Date) (oid : ObjectId)
  : Response * Db :=
  let coupon := own (property fakeCouponDatabase (show_id couponId)) in
  match property fakeShippingFeeDatabase (show_id shippingId) with
  | Absent => (InvalidShipping (show_id shippingId), db)
  | shippingData =>
    let shippingMethod := shippingMethod <$> own shippingData in
    let shippingFee := ShippingFee <$> own shippingData in
    match products with
    | [] => (status_json 400 "Products required", db)
    | _ =>
      match findById db req_user_id with
      | None => (status_json 404 "User not found", db)
      | Some user =>
        match order_loop products [] (Finite 0) with
        | inl pid => (InvalidProduct pid, db)
        | inr (fullProducts, totalAmount) =>
          let totalAmount := js_add totalAmount (field_number shippingFee) in
          let totalAmount := apply_coupon coupon totalAmount in
          if total_refused totalAmount then (save_rejected, db)
          else
            let o := mkOrder oid fullProducts shippingMethod now totalAmount
                             shippingFee coupon empty_review in
            let user := set_orders user (orders user ++ [o]) in
            (json (OrderCreated "Order created" (order_id o)), save user db)
        end
      end
    end
  end.

(** [app.put('/order/:orderId')]; the body carries [shippingMethod],
    [shippingFee] (a number, or [None] when the field is absent) and
    [coupon] as the caller sends them. *)
Definition put_order (db : Db) (req_user_id : ObjectId) (params_orderId : ObjectId)
    (products : list Line) (shippingMethod : option string)
    (shippingFee : option Z) (coupon : option Coupon) (now : Date)
  : Response * Db :=
  match findById db req_user_id with
  | None => (status_json 404 "User not found", db)
  | Some user =>
    match list_find (λ o, order_id o = params_orderId) (orders user) with
    | None => (status_json 404 "Order not found", db)
    | Some (i, order) =>
      match order_loop products [] (Finite 0) with
      | inl pid => (InvalidProduct pid, db)
      | inr (fullProducts, totalAmount) =>
        let totalAmount :=
          match shippingFee with
          | Some fee => js_add totalAmount (Finite fee)
          | None => totalAmount
          end in
        let totalAmount := apply_coupon coupon totalAmount in
        if total_refused totalAmount then (save_rejected, db)
        else
          let order := mkOrder (order_id order) fullProducts shippingMethod now
                               totalAmount shippingFee coupon (order_review order) in
          let user := set_orders user (<[i := order]> (orders user)) in
          (json (Message "Order updated"), save user db)
      end
    end
  end.

(** [app.delete('/order/:orderId')] *)
Definition delete_order (db : Db) (req_user_id : ObjectId) (params_orderId : ObjectId)
  : Response * Db :=
  match findById db req_user_id with
  | None => (status_json 404 "User not found", db)
  | Some user =>
    let lenBefore := length (orders user) in
    let user := set_orders user (filter (λ o, order_id o ≠ params_orderId) (orders user)) in
    if decide (length (orders user) = lenBefore)
    then (status_json 404 "Order not found", db)
    else (json (Message "Order deleted"), save user db)
  end.

End Store.

(** ** Review attachment: POST and DELETE /order/:orderId/review, GET image *)

(** The prefixes of the integer literals that [Number] reads in a text:
    [0x], [0o] and [0b]. *)
Inductive Radix := Hexadecimal | Octal | Binary.

(** What [req.body.rating] holds:
    - nothing (the field is absent or [null]);
    - a text that [Number] maps to [NaN], such as [five];
    - a JSON number, given by the value of the double it is parsed to;
    - a JSON boolean;
    - a text in decimal notation: an optional [-], the digits before the
      point, those after it, and an optional exponent, as in [4], [4.5],
      [.5], [0.5e1] or [50e-1];
    - a text made of one of the prefixes above and digits of that radix,
      given by the value the digits denote, as in [0b11] or [0x5]. *)
Inductive RatingValue :=
| Undefined
| NotNumeric (text : string)
| Numeric (q : Q)
| Boolean (b : bool)
| DecimalText (negative : bool) (whole fraction : Decimal.uint) (exponent : option Z)
| RadixText (radix : Radix) (value : N).

(** The value that a text in decimal notation denotes, before [Number]
    rounds it to a double: the digits before the point, plus those after
    it scaled by their number, times the power of ten of the exponent. *)
Definition decimal_value (whole fraction : Decimal.uint) (exponent : option Z) : Q :=
  Qmult (Qplus (inject_Z (Z.of_N (N.of_uint whole)))
               (Qmult (inject_Z (Z.of_N (N.of_uint fraction)))
                      (Qpower 10 (- Z.of_nat (Decimal.nb_digits fraction)))))
        (Qpower 10 (default 0 exponent)).

(** The least value that rounds to a double not below 1, and the greatest
    that rounds to one not above 5: the midpoints between 1 and the
    double before it, and between 5 and the double after it, which both
    round to the even neighbour, 1 and 5. *)
Definition rounds_to_1 : Q := 1 - (1 # 2 ^ 54).
Definition rounds_to_5 : Q := 5 + (1 # 2 ^ 51).

(** [!rating || isNaN(rating) || rating < 1 || rating > 5], where [isNaN]
    and the comparisons coerce with [Number]: [true] is 1, a text is the
    double nearest to the value it denotes. *)
Definition rating_rejected (rating : RatingValue) : bool :=
  match rating with
  | Undefined => true
  | NotNumeric _ => true
  | Numeric q =>
    Qeq_bool q 0
    || (if Qlt_le_dec q 1 then true else false)
    || (if Qlt_le_dec 5 q then true else false)
  | Boolean b => negb b
  | DecimalText negative whole fraction exponent =>
    let v := decimal_value whole fraction exponent in
    negative
    || (if Qlt_le_dec v rounds_to_1 then true else false)
    || (if Qlt_le_dec rounds_to_5 v then true else false)
  | RadixText _ value => bool_decide (value < 1)%N || bool_decide (5 < value)%N
  end.

(** [parseInt(rating)], which reads the text of its argument: the sign
    and the digits up to the first character that is no digit, in radix
    16 after [0x] and in radix 10 otherwise; [None] is [NaN].  A number
    is read as it prints, which for a number from 1 to 5 is in decimal
    notation without exponent. *)
Definition parseInt (rating : RatingValue) : option Z :=
  match rating with
  | Numeric q => Some (Z.quot (Qnum q) (Z.pos (Qden q)))
  | DecimalText negative whole _ _ =>
    match whole with
    | Decimal.Nil => None
    | _ => Some (if negative then - Z.of_N (N.of_uint whole)
                 else Z.of_N (N.of_uint whole))
    end
  | RadixText Hexadecimal value => Some (Z.of_N value)
  | RadixText _ _ => Some 0
  | Undefined | NotNumeric _ | Boolean _ => None
  end.

(** The guard of POST /order/:orderId/review:
    [order.review && (order.review.comment?.length > 0 ||
    order.review.rating || order.review.imageFiles.length > 0)];
    [order.review] is an object. *)
Definition review_exists (order : Order) : bool :=
  let review := order_review order in
  match comment review with
  | Some c => bool_decide (0 < String.length c)%nat
  | None => false
  end
  || match rating review with
     | Some r => bool_decide (r ≠ 0)
     | None => false
     end
  || bool_decide (0 < length (imageFiles review))%nat.

Definition set_review (o : Order) (r : Review) : Order :=
  mkOrder (order_id o) (order_products o) (order_shippingMethod o) (order_createdAt o)
          (order_totalAmount o) (order_shippingFee o) (order_coupon o) r.

(** [rating: { type: Number, min: 1, max: 5 }]: what [user.save()]
    accepts as the rating of a review; [NaN] does not cast. *)
Definition rating_accepted (rating : option Z) : bool :=
  match rating with
  | Some r => bool_decide (1 ≤ r ≤ 5)
  | None => false
  end.

(** [app.post('/order/:orderId/review')], after [authenticateToken] and
    [upload.array('images', 5)]: [files] are the buffers of [req.files].
    A rejected [user.save()] is caught and answered 500. *)
Definition post_review (db : Db) (req_user_id : ObjectId) (params_orderId : ObjectId)
    (body_comment : option string) (body_rating : RatingValue) (files : list Buffer)
  : Response * Db :=
  if rating_rejected body_rating then (InvalidRating, db)
  else
    match findById db req_user_id with
    | None => (status_json 404 "User not found", db)
    | Some user =>
      match list_find (λ o, order_id o = params_orderId) (orders user) with
      | None => (status_json 404 "Order not found", db)
      | Some (i, order) =>
        if review_exists order then (AlreadyExists, db)
        else
          let imageBuffers := files in
          let review :=
            mkReview (Some (default "" (truthy body_comment)))
                     (parseInt body_rating) imageBuffers in
          if rating_accepted (rating review)
          then
            let order := set_review order review in
            let user := set_orders user (<[i := order]> (orders user)) in
            (json (Message "Review added successfully"), save user db)
          else (caught, db)
      end
    end.

(** [app.delete('/order/:orderId/review')]: [!order.review] is false on
    every order, so the answer is 404 for an unknown order only. *)
Definition delete_review (db : Db) (req_user_id : ObjectId) (params_orderId : ObjectId)
  : Response * Db :=
  match findById db req_user_id with
  | None => (status_json 404 "User not found", db)
  | Some user =>
    match list_find (λ o, order_id o = params_orderId) (orders user) with
    | None => (status_json 404 "Review not found", db)
    | Some (i, order) =>
      let order := set_review order empty_review in
      let user := set_orders user (<[i := order]> (orders user)) in
      (json (Message "Review deleted"), save user db)
    end
  end.

(** [app.get('/order/:orderId/review/image/:index')]; as above,
    [!order.review] is false on every order. *)
Definition get_review_image (db : Db) (req_user_id : ObjectId)
    (params_orderId : ObjectId) (params_index : nat) : Response :=
  match findById db req_user_id with
  | None => status_json 404 "User not found"
  | Some user =>
    match list_find (λ o, order_id o = params_orderId) (orders user) with
    | None => status_json 404 "Review not found"
    | Some (i, order) =>
      match imageFiles (order_review order) !! params_index with
      | None => status_json 404 "Image not found"
      | Some image => json (Image "image/jpeg" image)
      end
    end
  end.

(** * Documents after a request *)

(** The document that /refresh saves, and the one that /logout saves. *)
Definition rotated (user : User) (token newRefreshToken : Token) : User :=
  set_refreshTokens user
    (filter (λ t, t ≠ token) (refreshTokens user) ++ [newRefreshToken]).

Definition revoked (user : User) (token : Token) : User :=
  set_refreshTokens user (filter (λ t, t ≠ token) (refreshTokens user)).

(** * Specification-side definitions *)

(** The first [productId] of a request that the catalog does not resolve. *)
Definition first_invalid (catalog : gmap string ProductInfo) (products : list Line)
  : option string :=
  (line_productId ∘ snd) <$>
    list_find (λ p, catalog !! line_productId p = None) products.

(** The catalog snapshot of a line, and of a request when every line
    resolves. *)
Definition resolve (catalog : gmap string ProductInfo) (p : Line) : option Product :=
  (λ info, fullProduct info p) <$> catalog !! line_productId p.

Definition snapshot (catalog : gmap string ProductInfo) (products : list Line)
  : option (list Product) :=
  mapM (resolve catalog) products.

(** [Σ (item.price × item.quantity)] *)
Definition subtotal (items : list Product) : Z :=
  foldr (λ item acc, price item * quantity item + acc) 0 items.

(** The total of the specification:
    [Σ(item.price × item.quantity) + shippingFee − coupon.discount (or 0)]. *)
Definition spec_totalAmount (items : list Product) (shippingFee : option Z)
    (coupon : option Coupon) : Z :=
  subtotal items + default 0 shippingFee - default 0 (discount <$> coupon).

(** The same formula evaluated in doubles, from left to right: every
    product, every sum and the subtraction is rounded. *)
Definition double_sum (start : number) (items : list Product) : number :=
  foldl (λ acc item, js_add acc (js_mul (Finite (price item)) (Finite (quantity item))))
        start items.

Definition double_totalAmount (items : list Product) (shippingFee : option Z)
    (coupon : option Coupon) : number :=
  let total := double_sum (Finite 0) items in
  let total :=
    match shippingFee with
    | Some fee => js_add total (Finite fee)
    | None => total
    end in
  match coupon with
  | Some c => if decide (discount c = 0) then total else js_sub total (Finite (discount c))
  | None => total
  end.

Definition total_consistent (o : Order) : Prop :=
  order_totalAmount o =
  double_totalAmount (order_products o) (order_shippingFee o) (order_coupon o).

(** The absolute values of the item amounts, the fee and the discount of
    an order, added up.  While this is at most [2 ^ 53], every partial
    result of the total is a whole number that a double holds. *)
Definition magnitude (items : list Product) (shippingFee : option Z)
    (coupon : option Coupon) : Z :=
  foldr (λ item acc, Z.abs (price item * quantity item) + acc) 0 items
  + Z.abs (default 0 shippingFee) + Z.abs (default 0 (discount <$> coupon)).


(** A coupon or shipping identifier, or its absence, that is no such
    name. *)
Definition plain_id (id : option string) : Prop := show_id id ∉ Object_prototype.

(** The cart invariant of the specification. *)
Definition unique_products (c : list Product) : Prop := NoDup (productId <$> c).
Definition positive_quantities (c : list Product) : Prop :=
  Forall (λ item, 1 ≤ quantity item) c.

(** One successful cart request, seen on the cart alone: the loop of
    POST /cart ran to its end, DELETE /cart filtered, or
    PUT /cart/:productId overwrote a quantity that passed its guard.  The
    carts a user can come to hold start from the schema default
    [{ products: [] }]. *)
Inductive cart_step (catalog : gmap string ProductInfo)
  : list Product → list Product → Prop :=
| cart_step_add (products : list Line) (c c' : list Product) :
    cart_loop catalog products c = inr c' →
    cart_step catalog c c'
| cart_step_delete (productIds : list string) (c : list Product) :
    cart_step catalog c (filter (λ p, productId p ∉ productIds) c)
| cart_step_put (pid : string) (qty : Z) (i : nat) (item : Product)
    (c : list Product) :
    ¬ qty < 1 →
    list_find (λ p, productId p = pid) c = Some (i, item) →
    cart_step catalog c (<[i := set_quantity item qty]> c).

Definition reachable_cart (catalog : gmap string ProductInfo) (c : list Product)
  : Prop :=
  rtc (cart_step catalog) [] c.

(** A stored review that the schema validators accept and that is not an
    empty placeholder: a comment with text, or a rating (within the
    [min: 1, max: 5] of the schema), or at least one image. *)
Definition non_empty_review (r : Review) : Prop :=
  (∃ c, comment r = Some c ∧ c ≠ "")
  ∨ (∃ z, rating r = Some z ∧ 1 ≤ z ≤ 5)
  ∨ imageFiles r ≠ [].

(** * Scenarios *)

(** Successive logins with the same credentials, one per clock reading. *)
Fixpoint logins (lib : Crypto) (db : Db) (e pw : string) (times : list Date) : Db :=
  match times with
  | [] => db
  | now :: times => logins lib (post_login lib db e pw now).2 e pw times
  end.

(** A token library to run the scenarios with: a token spells out the
    secret, the payload [id] and the issue time [iat]; verification checks
    the secret and reads the [id] back. *)
Definition demo_sign (id secret : string) (expiresIn : option Z) (now : Date) : Token :=
  secret +:+ "." +:+ id +:+ "." +:+ pretty now.

Definition demo_verify (token secret : string) (now : Date) : option ObjectId :=
  if String.prefix (secret +:+ ".") token
  then
    let payload := String.substring (S (String.length secret))
                     (String.length token - S (String.length secret)) token in
    (λ n, String.substring 0 n payload) <$> String.index 0 "." payload
  else None.

Definition demo_lib : Crypto :=
  mkCrypto "access" "refresh" demo_sign demo_verify
           (λ pw, "hash:" +:+ pw) (λ pw h, bool_decide (h = "hash:" +:+ pw)).

Definition alice : User :=
  mkUser "u1" "alice@example.com" "hash:secret" [] [] ["refresh.u1.7"].

Definition bob : User :=
  mkUser "u2" "bob@example.com" "hash:hunter2" [] [] [].

(** A catalog, and the users of the scenarios. *)
Definition demo_catalog : gmap string ProductInfo :=
  <["A" := mkProductInfo "Apple" "https://img.example/a.png" 100]>
  (<["B" := mkProductInfo "Bread" "https://img.example/b.png" 35]> ∅).

Definition apples (q : Z) : Product :=
  mkProduct "A" "Apple" "https://img.example/a.png" 100 q.

Definition carol : User :=
  mkUser "u3" "carol@example.com" "hash:pw" [] [apples 2] [].

Definition order1 : Order :=
  mkOrder "o1" [apples 5] (Some "超商") 1000 (Finite 540) (Some 60)
          (Some (mkCoupon "折扣20" 20)) empty_review.

Definition erin : User :=
  mkUser "u5" "erin@example.com" "hash:pw" [order1] [] [].

Definition five_stars : Review := mkReview (Some "") (Some 5) [].

(** * Middleware and profile *)

(** [s.split(' ')]: the pieces between single spaces, empty pieces kept. *)
Fixpoint split_space (s : string) : list string :=
  match s with
  | EmptyString => [""]
  | String c s =>
    if decide (c = " "%char) then "" :: split_space s
    else
      match split_space s with
      | piece :: pieces => String c piece :: pieces
      | [] => [String c ""]
      end
  end.

(** A string without space. *)
Fixpoint spaceless (s : string) : bool :=
  match s with
  | EmptyString => true
  | String c s => if decide (c = " "%char) then false else spaceless s
  end.

(** [authenticateToken]: [inl] is the answer sent without calling
    [next()], [inr id] is [next()] with [req.user.id = id].
    [authorization] is [req.headers['authorization']]. *)
Definition authenticateToken (lib : Crypto) (authorization : option string)
    (now : Date) : Response + ObjectId :=
  let token := authorization ≫= (λ authHeader, split_space authHeader !! 1%nat) in
  match truthy token with
  | None => inl (sendStatus 401)
  | Some token =>
    match jwt_verify lib token (ACCESS_TOKEN_SECRET lib) now with
    | None => inl (sendStatus 403)
    | Some id => inr id
    end
  end.

(** The body of GET /me. *)
Record ReviewView := mkReviewView {
  view_comment : option string;
  view_rating : option Z;
  imageUrls : list string
}.

Record OrderView := mkOrderView {
  view_id : ObjectId;
  view_products : list Product;
  view_shippingMethod : option string;
  view_createdAt : Date;
  view_totalAmount : number;
  view_shippingFee : option Z;
  view_coupon : option Coupon;
  view_review : ReviewView
}.

Record Me := mkMe {
  me_id : ObjectId;
  me_email : string;
  me_orders : list OrderView;
  me_cart : list Product
}.

(** [`${req.protocol}://${req.get('host')}/order/${o._id}/review/image/${i}`] *)
Definition image_url (protocol host : string) (oid : ObjectId) (i : nat) : string :=
  protocol +:+ "://" +:+ host +:+ "/order/" +:+ oid +:+ "/review/image/" +:+ pretty i.

(** One element of [orders]; [o.review] is an object, so the view of the
    review is never [null]. *)
Definition order_view (protocol host : string) (o : Order) : OrderView :=
  mkOrderView (order_id o) (order_products o) (order_shippingMethod o)
    (order_createdAt o) (order_totalAmount o) (order_shippingFee o) (order_coupon o)
    (mkReviewView (comment (order_review o)) (rating (order_review o))
       (imap (λ i _, image_url protocol host (order_id o) i)
             (imageFiles (order_review o)))).

(** [app.get('/me')], after [authenticateToken]; [protocol] and [host] are
    [req.protocol] and [req.get('host')]. *)
Definition get_me (db : Db) (req_user_id : ObjectId) (protocol host : string)
  : Response + Me :=
  match findById db req_user_id with
  | None => inl (status_json 404 "User not found")
  | Some user =>
    let orders := order_view protocol host <$> orders user in
    let cart := cart user in
    inr (mkMe (user_id user) (email user) orders cart)
  end.

(** * Measures on carts and collections *)



(** Requests sent one after the other by one user, each with one line. *)
Fixpoint post_cart_each (catalog : gmap string ProductInfo) (db : Db)
    (uid : ObjectId) (products : list Line) : Db :=
  match products with
  | [] => db
  | p :: products =>
    post_cart_each catalog (post_cart catalog db uid [p]).2 uid products
  end.

(** What a request may change in a document: the caller's cart only, the
    caller's orders only, the caller's refresh tokens only. *)
Definition same_but_cart (v v' : User) : Prop :=
  user_id v' = user_id v ∧ email v' = email v ∧ password v' = password v
  ∧ orders v' = orders v ∧ refreshTokens v' = refreshTokens v.

Definition same_but_orders (v v' : User) : Prop :=
  user_id v' = user_id v ∧ email v' = email v ∧ password v' = password v
  ∧ cart v' = cart v ∧ refreshTokens v' = refreshTokens v.

Definition same_but_refreshTokens (v v' : User) : Prop :=
  user_id v' = user_id v ∧ email v' = email v ∧ password v' = password v
  ∧ cart v' = cart v ∧ orders v' = orders v.

(** [db'] is [db] where at most the documents under [uid] changed, and
    those only as [keep] allows. *)
Definition touches_only (keep : User → User → Prop) (uid : ObjectId) (db db' : Db)
  : Prop :=
  Forall2 (λ v v', keep v v' ∧ (user_id v ≠ uid → v' = v)) db db'.

Definition unique_ids (db : Db) : Prop := NoDup (user_id <$> db).
Definition unique_emails (db : Db) : Prop := NoDup (email <$> db).

(** * Properties *)

(** ** Finding and saving documents *)

Section Find.

Context {A : Type} (P : A → Prop) `{!∀ x, Decision (P x)}.

(** [find] without the index. *)
Lemma find_cons (x : A) (l : list A) :
  snd <$> list_find P (x :: l) =
  if decide (P x) then Some x else snd <$> list_find P l.
Proof.
  cbn. destruct (decide (P x)); [done|].
  by destruct (list_find P l) as [[??]|].
Qed.

Lemma find_Some_holds (l : list A) (x : A) :
  snd <$> list_find P l = Some x → x ∈ l ∧ P x.
Proof.
  destruct (list_find P l) as [[i y]|] eqn:E; [|done].
  intros [= <-]. apply list_find_Some in E as (E & HP & _).
  split; [by eapply list_elem_of_lookup_2|done].
Qed.

Lemma find_None_iff (l : list A) :
  snd <$> list_find P l = None ↔ ∀ x, x ∈ l → ¬ P x.
Proof.
  rewrite fmap_None, list_find_None, Forall_forall. done.
Qed.

Lemma find_is_Some (l : list A) (x : A) :
  x ∈ l → P x → is_Some (snd <$> list_find P l).
Proof.
  intros Hx HP. rewrite fmap_is_Some. by eapply list_find_elem_of.
Qed.

End Find.

Section Save.

Context (P : User → Prop) `{!∀ x, Decision (P x)}.

Lemma length_save (u : User) (db : Db) : length (save u db) = length db.
Proof. unfold save. by rewrite length_fmap. Qed.

(** Documents under another [_id] are not written. *)
Lemma save_lookup_other (u : User) (db : Db) (i : nat) (v : User) :
  db !! i = Some v → user_id v ≠ user_id u → save u db !! i = Some v.
Proof.
  intros Hi Hne. unfold save. rewrite list_lookup_fmap, Hi. cbn.
  by rewrite decide_False.
Qed.

Lemma elem_of_save (u : User) (db : Db) (w : User) :
  w ∈ save u db →
  w = u ∨ (w ∈ db ∧ user_id w ≠ user_id u).
Proof.
  unfold save. intros (v & -> & Hv)%list_elem_of_fmap.
  destruct (decide (user_id v = user_id u)); auto.
Qed.

(** The document that a query found is found again, as saved, when the
    saved version still matches the query. *)
Lemma find_save_same (db : Db) (u u' : User) :
  snd <$> list_find P db = Some u →
  user_id u' = user_id u → P u' →
  snd <$> list_find P (save u' db) = Some u'.
Proof.
  intros Hfind Hid HP. induction db as [|x db IH]; [done|].
  rewrite find_cons in Hfind. unfold save. rewrite fmap_cons, find_cons.
  destruct (decide (user_id x = user_id u')) as [Hx|Hx].
  - by rewrite decide_True.
  - destruct (decide (P x)); [|by apply IH].
    injection Hfind as ->. congruence.
Qed.

(** A query that the saved version does not match, and that no document
    under another [_id] matches, finds nothing. *)
Lemma find_save_None (db : Db) (u' : User) :
  ¬ P u' →
  (∀ v, v ∈ db → user_id v ≠ user_id u' → ¬ P v) →
  snd <$> list_find P (save u' db) = None.
Proof.
  intros Hu Hothers. apply find_None_iff.
  intros w [->|[Hw Hne]]%elem_of_save; eauto.
Qed.

End Save.

Lemma findById_save (db : Db) (u u' : User) :
  u ∈ db → user_id u' = user_id u →
  findById (save u' db) (user_id u) = Some u'.
Proof.
  intros Hin Hid. unfold findById.
  destruct (find_is_Some (λ v, user_id v = user_id u) db u Hin eq_refl) as [w Hw].
  destruct (find_Some_holds _ _ _ Hw) as [_ Hwid].
  eapply find_save_same; [exact Hw|congruence|done].
Qed.

(** ** Login *)

Section Login.

Variable lib : Crypto.

Lemma post_login_ok (db : Db) (e pw : string) (now : Date) (user : User) :
  findOne_email db e = Some user →
  bcrypt_compare lib pw (password user) = true →
  post_login lib db e pw now =
    (json (Tokens (generateAccessToken lib (user_id user) now)
                  (generateRefreshToken lib (user_id user) now)),
     save (set_refreshTokens user
             (refreshTokens user ++ [generateRefreshToken lib (user_id user) now])) db).
Proof.
  intros Hfind Hpw. unfold post_login. by rewrite Hfind, Hpw.
Qed.

Lemma logins_findOne (times : list Date) (db : Db) (e pw : string) (user : User) :
  findOne_email db e = Some user →
  bcrypt_compare lib pw (password user) = true →
  findOne_email (logins lib db e pw times) e =
    Some (set_refreshTokens user
            (refreshTokens user ++ (generateRefreshToken lib (user_id user) <$> times))).
Proof.
  revert db user. induction times as [|now times IH]; intros db user Hfind Hpw.
  - cbn. rewrite app_nil_r. by destruct user.
  - cbn [logins]. rewrite (post_login_ok _ _ _ _ _ Hfind Hpw). cbn [snd].
    destruct (find_Some_holds _ _ _ Hfind) as [_ He].
    erewrite IH; [|by eapply (find_save_same (λ u, email u = e)); eauto|done].
    cbn. by rewrite <- app_assoc.
Qed.

End Login.

(** C10. A login with valid credentials answers with a token pair and
    saves the user with the issued refresh token pushed at the end of
    [refreshTokens]: every token stored before is still there, the array
    is one longer, email, password hash, cart and orders are as before,
    and no document under another [_id] is written.  Logging in again and
    again keeps pushing, one token per login, so the array grows without
    bound. *)
Theorem login_pushes_one_refresh_token
    (lib : Crypto) (db : Db) (e pw : string) (now : Date) (user : User) :
  findOne_email db e = Some user →
  bcrypt_compare lib pw (password user) = true →
  let refreshToken := generateRefreshToken lib (user_id user) now in
  let db' := (post_login lib db e pw now).2 in
  (post_login lib db e pw now).1 =
    json (Tokens (generateAccessToken lib (user_id user) now) refreshToken)
  ∧ (∃ user',
       findById db' (user_id user) = Some user'
       ∧ refreshTokens user' = refreshTokens user ++ [refreshToken]
       ∧ (∀ t, t ∈ refreshTokens user → t ∈ refreshTokens user')
       ∧ length (refreshTokens user') = S (length (refreshTokens user))
       ∧ email user' = email user
       ∧ password user' = password user
       ∧ cart user' = cart user
       ∧ orders user' = orders user)
  ∧ length db' = length db
  ∧ (∀ i v, db !! i = Some v → user_id v ≠ user_id user → db' !! i = Some v)
  ∧ (∀ times, ∃ user_n,
       findOne_email (logins lib db e pw times) e = Some user_n
       ∧ refreshTokens user_n =
           refreshTokens user ++ (generateRefreshToken lib (user_id user) <$> times)
       ∧ length (refreshTokens user_n) =
           (length (refreshTokens user) + length times)%nat).
Proof.
  intros Hfind Hpw refreshToken db'. subst db'.
  rewrite (post_login_ok lib _ _ _ now _ Hfind Hpw). cbn [fst snd].
  destruct (find_Some_holds _ _ _ Hfind) as [Hin _].
  split_and!.
  - done.
  - eexists. split; [by apply findById_save|].
    cbn. split_and!; try done.
    + intros t Ht. apply elem_of_app. by left.
    + rewrite length_app. cbn. lia.
  - apply length_save.
  - intros i v Hi Hne. by apply save_lookup_other.
  - intros times. eexists. split; [by apply logins_findOne|].
    cbn. split; [done|]. by rewrite length_app, length_fmap.
Qed.

Lemma login_pushes_one_refresh_token_witness :
  findOne_email [bob; alice] "alice@example.com" = Some alice
  ∧ (post_login demo_lib [bob; alice] "alice@example.com" "secret" 9).1 =
      json (Tokens "access.u1.9" "refresh.u1.9").
Proof.
  split; [reflexivity|].
  apply (login_pushes_one_refresh_token demo_lib [bob; alice]
           "alice@example.com" "secret" 9 alice); reflexivity.
Defined.

(** ** Rotation and revocation *)

Lemma truthy_Some (s : string) : s ≠ "" → truthy (Some s) = Some s.
Proof. by destruct s. Qed.

Lemma truthy_inv (o : option string) (s : string) :
  truthy o = Some s → o = Some s ∧ s ≠ "".
Proof. destruct o as [[|??]|]; cbn; intros [= <-]; done. Qed.

Lemma not_elem_of_filter_ne (token : Token) (ts : list Token) :
  token ∉ filter (λ t, t ≠ token) ts.
Proof. rewrite list_elem_of_filter. tauto. Qed.

Section SaveOnly.

Context (P : User → Prop) `{!∀ x, Decision (P x)}.

(** A query that only documents under the saved [_id] can match finds
    the saved version. *)
Lemma find_save_only (db : Db) (u' : User) :
  P u' →
  (∃ v, v ∈ db ∧ user_id v = user_id u') →
  (∀ v, v ∈ db → user_id v ≠ user_id u' → ¬ P v) →
  snd <$> list_find P (save u' db) = Some u'.
Proof.
  intros HP (v & Hv & Hid) Hothers.
  induction db as [|x db IH]; [by apply elem_of_nil in Hv|].
  unfold save. rewrite fmap_cons, find_cons.
  destruct (decide (user_id x = user_id u')) as [Hx|Hx].
  - by rewrite decide_True.
  - rewrite decide_False by (apply Hothers; [left|done]).
    apply IH.
    + apply elem_of_cons in Hv as [->|Hv]; [congruence|done].
    + intros w Hw. apply Hothers. by right.
Qed.

End SaveOnly.

Section Rotation.

Variable lib : Crypto.

Lemma post_refresh_ok (db : Db) (token : Token) (now : Date) (user : User)
    (id : ObjectId) :
  token ≠ "" →
  findOne_refreshTokens db token = Some user →
  jwt_verify lib token (REFRESH_TOKEN_SECRET lib) now = Some id →
  post_refresh lib db (Some token) now =
    (json (Tokens (generateAccessToken lib id now) (generateRefreshToken lib id now)),
     save (rotated user token (generateRefreshToken lib id now)) db).
Proof.
  intros Hne Hfind Hverify. unfold post_refresh.
  by rewrite truthy_Some, Hfind, Hverify.
Qed.

Lemma post_refresh_unknown (db : Db) (token : Token) (now : Date) :
  findOne_refreshTokens db token = None →
  post_refresh lib db (Some token) now =
    (sendStatus (if decide (token = "") then 401 else 403), db).
Proof.
  intros Hfind. unfold post_refresh. destruct token as [|a s]; [done|].
  cbn [truthy]. by rewrite Hfind.
Qed.

Lemma post_logout_ok (db : Db) (token : Token) (user : User) :
  token ≠ "" →
  findOne_refreshTokens db token = Some user →
  post_logout db (Some token) =
    (json (Message "Logged out successfully"), save (revoked user token) db).
Proof.
  intros Hne Hfind. unfold post_logout. by rewrite truthy_Some, Hfind.
Qed.

(** Once the only holder of a token was saved without it, nobody holds it. *)
Lemma findOne_refreshTokens_gone (db : Db) (user' : User) (token : Token) :
  token ∉ refreshTokens user' →
  (∀ v, v ∈ db → user_id v ≠ user_id user' → token ∉ refreshTokens v) →
  findOne_refreshTokens (save user' db) token = None.
Proof.
  intros. by apply (find_save_None (λ u, token ∈ refreshTokens u)).
Qed.

End Rotation.

(** X22. A successful rotation of [oldToken], held by [user] and by no
    document under another [_id], where the newly issued refresh token is
    a new string: one [save] writes the array without [oldToken] and with
    the new token pushed at its end; afterwards no document holds
    [oldToken], so rotating it again is answered 403; the new token, when
    the library verifies it and the next rotation issues a new string
    again, rotates successfully once, and is answered 403 from then on. *)
Theorem refresh_rotates_token
    (lib : Crypto) (db : Db) (oldToken : Token) (now : Date) (user : User)
    (id : ObjectId) :
  oldToken ≠ "" →
  findOne_refreshTokens db oldToken = Some user →
  jwt_verify lib oldToken (REFRESH_TOKEN_SECRET lib) now = Some id →
  let newRefreshToken := generateRefreshToken lib id now in
  newRefreshToken ≠ oldToken →
  newRefreshToken ≠ "" →
  (∀ v, v ∈ db → user_id v ≠ user_id user →
        (oldToken ∉ refreshTokens v) ∧ (newRefreshToken ∉ refreshTokens v)) →
  let db' := (post_refresh lib db (Some oldToken) now).2 in
  (post_refresh lib db (Some oldToken) now).1 =
    json (Tokens (generateAccessToken lib id now) newRefreshToken)
  ∧ db' = save (rotated user oldToken newRefreshToken) db
  ∧ findById db' (user_id user) = Some (rotated user oldToken newRefreshToken)
  ∧ (oldToken ∉ refreshTokens (rotated user oldToken newRefreshToken))
  ∧ (newRefreshToken ∈ refreshTokens (rotated user oldToken newRefreshToken))
  ∧ (∀ v, v ∈ db' → oldToken ∉ refreshTokens v)
  ∧ findOne_refreshTokens db' oldToken = None
  ∧ (∀ later, post_refresh lib db' (Some oldToken) later = (sendStatus 403, db'))
  ∧ (∀ next id',
       jwt_verify lib newRefreshToken (REFRESH_TOKEN_SECRET lib) next = Some id' →
       generateRefreshToken lib id' next ≠ newRefreshToken →
       let second := post_refresh lib db' (Some newRefreshToken) next in
       second.1 = json (Tokens (generateAccessToken lib id' next)
                               (generateRefreshToken lib id' next))
       ∧ ∀ later, post_refresh lib second.2 (Some newRefreshToken) later =
                  (sendStatus 403, second.2)).
Proof.
  intros Hne Hfind Hverify newRefreshToken Hfresh Hnew Hothers db'. subst db'.
  rewrite (post_refresh_ok lib _ _ now _ _ Hne Hfind Hverify). cbn [fst snd].
  fold newRefreshToken.
  destruct (find_Some_holds _ _ _ Hfind) as [Hin Hholds].
  set (user' := rotated user oldToken newRefreshToken).
  assert (Hold : oldToken ∉ refreshTokens user').
  { cbn. rewrite elem_of_app, list_elem_of_singleton.
    intros [H%not_elem_of_filter_ne|H]; [done|]. by apply Hfresh. }
  assert (Hheld : newRefreshToken ∈ refreshTokens user').
  { cbn. apply elem_of_app. right. by apply list_elem_of_singleton. }
  assert (Hgone : findOne_refreshTokens (save user' db) oldToken = None).
  { apply findOne_refreshTokens_gone; [done|]. intros v Hv Hid.
    by apply Hothers. }
  split_and!; try done.
  - by apply findById_save.
  - by apply (find_None_iff (λ u, oldToken ∈ refreshTokens u)).
  - intros later. rewrite (post_refresh_unknown lib _ _ later Hgone).
    by rewrite decide_False.
  - intros next id' Hverify' Hfresh'.
    assert (Hfind' : findOne_refreshTokens (save user' db) newRefreshToken = Some user').
    { apply (find_save_only (λ u, newRefreshToken ∈ refreshTokens u)); [done|by eauto|].
      intros v Hv Hid. by apply Hothers. }
    rewrite (post_refresh_ok lib _ _ next _ _ Hnew Hfind' Hverify'). cbn [fst snd].
    split; [done|]. intros later.
    rewrite post_refresh_unknown; [by rewrite decide_False|].
    apply findOne_refreshTokens_gone.
    + cbn. rewrite elem_of_app, list_elem_of_singleton.
      intros [H%not_elem_of_filter_ne|H]; [done|]. by apply Hfresh'.
    + intros v [->|[Hv Hid']]%elem_of_save Hid; [done|]. by apply Hothers.
Qed.

Lemma refresh_rotates_token_witness :
  findOne_refreshTokens [bob; alice] "refresh.u1.7" = Some alice
  ∧ jwt_verify demo_lib "refresh.u1.7" (REFRESH_TOKEN_SECRET demo_lib) 9 = Some "u1"
  ∧ post_refresh demo_lib [bob; alice] (Some "refresh.u1.7") 9 =
      (json (Tokens "access.u1.9" "refresh.u1.9"),
       [bob; set_refreshTokens alice ["refresh.u1.9"]])
  ∧ ∀ later,
      post_refresh demo_lib [bob; set_refreshTokens alice ["refresh.u1.9"]]
                   (Some "refresh.u1.7") later =
      (sendStatus 403, [bob; set_refreshTokens alice ["refresh.u1.9"]]).
Proof.
  split; [reflexivity|]. split; [reflexivity|]. split; [reflexivity|].
  destruct (refresh_rotates_token demo_lib [bob; alice] "refresh.u1.7" 9 alice "u1")
    as (_ & _ & _ & _ & _ & _ & _ & Hlater & _); try done.
  intros v Hv. rewrite !elem_of_cons, elem_of_nil in Hv.
  destruct Hv as [->|[->|[]]]; [|done]. intros _. cbn. set_solver.
Defined.

(** Whatever the token library, a rotation that signs the rotated string
    again leaves that string in the saved array. *)
Lemma refresh_reissuing_keeps_token
    (lib : Crypto) (db : Db) (token : Token) (now : Date) (user : User)
    (id : ObjectId) :
  token ≠ "" →
  findOne_refreshTokens db token = Some user →
  jwt_verify lib token (REFRESH_TOKEN_SECRET lib) now = Some id →
  generateRefreshToken lib id now = token →
  (post_refresh lib db (Some token) now).1 =
    json (Tokens (generateAccessToken lib id now) token)
  ∧ findOne_refreshTokens (post_refresh lib db (Some token) now).2 token =
      Some (rotated user token token).
Proof.
  intros Hne Hfind Hverify Hsame.
  rewrite (post_refresh_ok lib _ _ now _ _ Hne Hfind Hverify), Hsame. cbn [fst snd].
  split; [done|].
  apply (find_save_same (λ u, token ∈ refreshTokens u) db user); [done..|].
  cbn. apply elem_of_app. right. by apply list_elem_of_singleton.
Qed.

(** C1. POST /refresh in the second in which the rotated token was
    issued does not invalidate it.  [jwt.sign({ id }, secret)] is computed
    from the secret, the [id] and the issue time in seconds, so the
    rotation signs the same string again: [filter] drops it, [push] puts
    it back.  Here a user logs in and rotates the token within second 7;
    the answer carries the rotated token itself, which is still held and
    rotates once more. *)
Theorem refresh_in_issue_second_keeps_token :
  let dave := mkUser "u4" "dave@example.com" "hash:pw" [] [] [] in
  let login := post_login demo_lib [dave] "dave@example.com" "pw" 7 in
  let first := post_refresh demo_lib login.2 (Some "refresh.u4.7") 7 in
  login.1 = json (Tokens "access.u4.7" "refresh.u4.7")
  ∧ first.1 = json (Tokens "access.u4.7" "refresh.u4.7")
  ∧ findOne_refreshTokens first.2 "refresh.u4.7" =
      Some (set_refreshTokens dave ["refresh.u4.7"])
  ∧ succeeded (post_refresh demo_lib first.2 (Some "refresh.u4.7") 8).1.
Proof. by vm_compute. Qed.

(** C2. A token that some user holds is removed, with every copy, from
    the array of the first document found holding it, and the answer is
    the logout message; the other tokens of that document stay.  The
    request is answered with an error exactly when no document holds the
    token, and then nothing is written.  So, once the only holder was
    saved without the token, revoking it again is answered 403. *)
Theorem logout_revokes_token (db : Db) (token : Token) :
  token ≠ "" →
  let r := post_logout db (Some token) in
  (failed r.1 ↔ ∀ v, v ∈ db → token ∉ refreshTokens v)
  ∧ (failed r.1 → r = (sendStatus 403, db))
  ∧ (∀ user,
       findOne_refreshTokens db token = Some user →
       r = (json (Message "Logged out successfully"), save (revoked user token) db)
       ∧ findById r.2 (user_id user) = Some (revoked user token)
       ∧ (token ∉ refreshTokens (revoked user token))
       ∧ (∀ t, t ≠ token →
               t ∈ refreshTokens user ↔ t ∈ refreshTokens (revoked user token))
       ∧ ((∀ v, v ∈ db → user_id v ≠ user_id user → token ∉ refreshTokens v) →
          post_logout r.2 (Some token) = (sendStatus 403, r.2))).
Proof.
  intros Hne r. subst r. unfold post_logout at 1 2. rewrite truthy_Some by done.
  destruct (findOne_refreshTokens db token) as [user|] eqn:Hfind.
  - destruct (find_Some_holds _ _ _ Hfind) as [Hin Hholds].
    cbn [fst snd]. split_and!.
    + split; [by intros []|]. intros Hnone. by destruct (Hnone user Hin).
    + by intros [].
    + intros ? [= <-]. rewrite (post_logout_ok _ _ _ Hne Hfind). cbn [fst snd].
      split_and!; try done.
      * by apply findById_save.
      * apply not_elem_of_filter_ne.
      * intros t Ht. cbn. rewrite list_elem_of_filter. tauto.
      * intros Hothers. unfold post_logout. rewrite truthy_Some by done.
        rewrite findOne_refreshTokens_gone; [done|apply not_elem_of_filter_ne|done].
  - cbn [fst snd]. split_and!; [|by intros _; unfold post_logout; rewrite truthy_Some, Hfind|done].
    split; [|done]. intros _.
    by apply (find_None_iff (λ u, token ∈ refreshTokens u)).
Qed.

Lemma logout_revokes_token_witness :
  findOne_refreshTokens [bob; alice] "refresh.u1.7" = Some alice
  ∧ post_logout [bob; alice] (Some "refresh.u1.7") =
      (json (Message "Logged out successfully"), [bob; set_refreshTokens alice []])
  ∧ post_logout [bob; set_refreshTokens alice []] (Some "refresh.u1.7") =
      (sendStatus 403, [bob; set_refreshTokens alice []]).
Proof.
  split; [reflexivity|].
  destruct (logout_revokes_token [bob; alice] "refresh.u1.7") as (_ & _ & Hheld);
    [done|].
  destruct (Hheld alice) as (Hfirst & _ & _ & _ & Hsecond); [reflexivity|].
  split; [exact Hfirst|]. apply Hsecond.
  intros v Hv. rewrite !elem_of_cons, elem_of_nil in Hv.
  destruct Hv as [->|[->|[]]]; [|done]. intros _. cbn. set_solver.
Defined.

(** C2, as stated, fails on a repeated logout: the first request removes
    the token from the only set that held it, and the second one, on a
    token that is now absent from its owner's set, is answered 403. *)
Lemma logout_twice_is_rejected :
  let first := post_logout [bob; alice] (Some "refresh.u1.7") in
  succeeded first.1
  ∧ findById first.2 "u1" = Some (set_refreshTokens alice [])
  ∧ post_logout first.2 (Some "refresh.u1.7") = (sendStatus 403, first.2)
  ∧ ¬ succeeded (post_logout first.2 (Some "refresh.u1.7")).1.
Proof. by vm_compute. Qed.

(** ** Cart *)

Section Cart.

Variable fakeProductDatabase : gmap string ProductInfo.



Lemma cart_loop_invalid (p : Line) (products : list Line) (c : list Product) :
  fakeProductDatabase !! line_productId p = None →
  cart_loop fakeProductDatabase (p :: products) c = inl (line_productId p).
Proof. intros Hinfo. cbn. by rewrite Hinfo. Qed.

Lemma post_cart_ok (db : Db) (uid : ObjectId) (products : list Line)
    (user : User) (c : list Product) :
  products ≠ [] →
  findById db uid = Some user →
  cart_loop fakeProductDatabase products (cart user) = inr c →
  post_cart fakeProductDatabase db uid products =
    (json (CartUpdated "Add to cart successfully" c), save (set_cart user c) db).
Proof.
  intros Hne Hfind Hloop. unfold post_cart. destruct products; [done|].
  by rewrite Hfind, Hloop.
Qed.

Lemma findById_saved (db : Db) (uid : ObjectId) (user user' : User) :
  findById db uid = Some user →
  user_id user' = user_id user →
  findById (save user' db) uid = Some user'.
Proof.
  intros Hfind Hid. destruct (find_Some_holds _ _ _ Hfind) as [Hin <-].
  by apply findById_save.
Qed.

(** The entry that [find] returns keeps its place and its [productId]
    when its quantity is overwritten. *)
Lemma list_find_set_quantity (pid : string) (c : list Product) (i : nat)
    (existing : Product) (q : Z) :
  list_find (λ item, productId item = pid) c = Some (i, existing) →
  list_find (λ item, productId item = pid) (<[i := set_quantity existing q]> c) =
    Some (i, set_quantity existing q).
Proof.
  intros (Hi & Hpid & Hleast)%list_find_Some. apply list_find_Some.
  split_and!.
  - apply list_lookup_insert_eq. by eapply lookup_lt_Some.
  - done.
  - intros j y Hj Hlt. rewrite list_lookup_insert_ne in Hj by lia. eauto.
Qed.


End Cart.




(** ** Numbers and object reads *)

Lemma to_number_exact (z : Z) : Z.abs z ≤ 2 ^ 53 → to_number z = Finite z.
Proof.
  intros Hz. unfold to_number, nearest_double.
  rewrite (proj2 (Z.leb_le _ _) Hz).
  assert (Hlt : 2 ^ 53 < 2 ^ 1024) by (by apply Z.pow_lt_mono_r).
  rewrite (proj2 (Z.leb_gt _ _)); [done|].
  by eapply Z.le_lt_trans.
Qed.

Lemma to_number_defined (z : Z) : total_refused (to_number z) = false.
Proof. unfold to_number. by case_match. Qed.

Lemma js_add_NaN_r (a : number) : js_add a NaN = NaN.
Proof. by destruct a. Qed.

Lemma js_add_defined (a : number) (z : Z) :
  total_refused a = false → total_refused (js_add a (Finite z)) = false.
Proof. destruct a; [|done..]. intros _. apply to_number_defined. Qed.

Lemma js_sub_defined (a : number) (z : Z) :
  total_refused a = false → total_refused (js_sub a (Finite z)) = false.
Proof. apply js_add_defined. Qed.

Lemma apply_coupon_NaN (coupon : option Coupon) : apply_coupon coupon NaN = NaN.
Proof. destruct coupon as [c|]; [|done]. cbn. by case_decide. Qed.

Lemma double_sum_NaN (items : list Product) : double_sum NaN items = NaN.
Proof. induction items as [|item items IH]; [done|]. exact IH. Qed.

(** The total that the handlers compute from what the loop returns is
    [double_totalAmount] of the stored items, fee and coupon. *)
Lemma apply_coupon_total (items : list Product) (fee : option Z)
    (coupon : option Coupon) :
  apply_coupon coupon
    (match fee with
     | Some fee => js_add (double_sum (Finite 0) items) (Finite fee)
     | None => double_sum (Finite 0) items
     end) = double_totalAmount items fee coupon.
Proof. done. Qed.

Lemma double_sum_exact (items : list Product) (start : Z) :
  Z.abs start + foldr (λ item acc, Z.abs (price item * quantity item) + acc) 0 items
    ≤ 2 ^ 53 →
  double_sum (Finite start) items = Finite (start + subtotal items).
Proof.
  revert start. induction items as [|item items IH]; intros start; cbn [foldr].
  - intros _. cbn. by rewrite Z.add_0_r.
  - intros Hbound.
    assert (0 ≤ foldr (λ item acc, Z.abs (price item * quantity item) + acc) 0 items).
    { clear. induction items as [|x items IH]; cbn; lia. }
    unfold double_sum. cbn [foldl js_mul].
    rewrite to_number_exact by lia. cbn [js_add].
    rewrite to_number_exact by lia.
    fold (double_sum (Finite (start + price item * quantity item)) items).
    rewrite IH by lia. unfold subtotal. cbn [foldr]. f_equal. lia.
Qed.

Lemma subtotal_bound (items : list Product) :
  Z.abs (subtotal items)
  ≤ foldr (λ item acc, Z.abs (price item * quantity item) + acc) 0 items.
Proof. unfold subtotal. induction items as [|x items IH]; cbn; lia. Qed.

(** Within the range where whole numbers are doubles the rounded total
    is the exact one. *)
Lemma double_totalAmount_exact (items : list Product) (fee : option Z)
    (coupon : option Coupon) :
  magnitude items fee coupon ≤ 2 ^ 53 →
  double_totalAmount items fee coupon = Finite (spec_totalAmount items fee coupon).
Proof.
  unfold magnitude, double_totalAmount, spec_totalAmount. intros Hbound.
  pose proof (subtotal_bound items) as Hsub.
  rewrite (double_sum_exact items 0) by lia. rewrite Z.add_0_l.
  assert (Hfee : match fee with
                 | Some fee => js_add (Finite (subtotal items)) (Finite fee)
                 | None => Finite (subtotal items)
                 end = Finite (subtotal items + default 0 fee)).
  { destruct fee as [fee|]; cbn in *; [|by rewrite Z.add_0_r].
    by rewrite to_number_exact by lia. }
  rewrite Hfee. destruct coupon as [c|]; cbn in *; [|by rewrite Z.sub_0_r].
  case_decide as Hc; [by rewrite Hc, Z.sub_0_r|].
  rewrite to_number_exact by lia. f_equal; lia.
Qed.

Lemma property_Own {A} (table : gmap string A) (key : string) (entry : A) :
  table !! key = Some entry → property table key = Own entry.
Proof. unfold property. by intros ->. Qed.

Lemma property_plain {A} (table : gmap string A) (key : string) :
  key ∉ Object_prototype →
  property table key = match table !! key with
                       | Some entry => Own entry
                       | None => Absent
                       end.
Proof. intros Hplain. unfold property. destruct (table !! key); [done|]. by rewrite decide_False. Qed.

Lemma own_property {A} (table : gmap string A) (id : option string) :
  table !! "undefined" = None →
  own (property table (show_id id)) = lookup_id table id.
Proof.
  intros Hundefined. destruct id as [k|]; cbn; unfold property.
  - destruct (table !! k); [done|]. by case_decide.
  - rewrite Hundefined. by case_decide.
Qed.

Lemma Own_property_id {A} (table : gmap string A) (id : option string) (entry : A) :
  table !! "undefined" = None →
  property table (show_id id) = Own entry → lookup_id table id = Some entry.
Proof. intros Hundefined Hown. by rewrite <- own_property, Hown. Qed.

Lemma shipping_undefined : fakeShippingFeeDatabase !! "undefined" = None.
Proof. by vm_compute. Qed.

Lemma coupon_undefined : fakeCouponDatabase !! "undefined" = None.
Proof. by vm_compute. Qed.

(** ** The item loops *)

Section Batch.

Variable fakeProductDatabase : gmap string ProductInfo.

Lemma first_invalid_cons (p : Line) (products : list Line) :
  first_invalid fakeProductDatabase (p :: products) =
  match fakeProductDatabase !! line_productId p with
  | None => Some (line_productId p)
  | Some _ => first_invalid fakeProductDatabase products
  end.
Proof.
  unfold first_invalid. cbn [list_find].
  destruct (fakeProductDatabase !! line_productId p) as [info|] eqn:E.
  - rewrite decide_False by done.
    by destruct (list_find _ products) as [[??]|].
  - by rewrite decide_True.
Qed.


Lemma cart_loop_all_valid (products : list Line) (c : list Product) :
  first_invalid fakeProductDatabase products = None →
  ∃ c', cart_loop fakeProductDatabase products c = inr c'.
Proof.
  revert c. induction products as [|p products IH]; intros c; [by eexists|].
  rewrite first_invalid_cons. cbn [cart_loop].
  destruct (fakeProductDatabase !! line_productId p) as [info|]; [|done].
  intros Hrest. destruct (list_find _ c) as [[i existing]|]; by apply IH.
Qed.


Lemma subtotal_app (a b : list Product) : subtotal (a ++ b) = subtotal a + subtotal b.
Proof. unfold subtotal. induction a as [|x a IH]; cbn; [done|]. rewrite IH. lia. Qed.

(** The loop pushes the snapshot of each line, in order, and adds
    [info.price * p.quantity] for each. *)
Lemma order_loop_snapshot (products : list Line) (fullProducts : list Product)
    (totalAmount : number) (items : list Product) :
  snapshot fakeProductDatabase products = Some items →
  order_loop fakeProductDatabase products fullProducts totalAmount =
    inr (fullProducts ++ items, double_sum totalAmount items).
Proof.
  revert fullProducts totalAmount items.
  induction products as [|p products IH]; intros fullProducts totalAmount items.
  - intros [= <-]. cbn. by rewrite app_nil_r.
  - unfold snapshot, resolve. cbn [mapM order_loop].
    destruct (fakeProductDatabase !! line_productId p) as [info|] eqn:Hinfo; [|done].
    rewrite (property_Own _ _ _ Hinfo).
    cbn. fold (resolve fakeProductDatabase). fold (snapshot fakeProductDatabase products).
    destruct (snapshot fakeProductDatabase products) as [rest|] eqn:Hrest; [|done].
    intros [= <-]. rewrite (IH _ _ rest eq_refl). cbn.
    by rewrite <- app_assoc.
Qed.

Lemma snapshot_all_valid (products : list Line) :
  first_invalid fakeProductDatabase products = None →
  is_Some (snapshot fakeProductDatabase products).
Proof.
  induction products as [|p products IH]; [by eexists|].
  rewrite first_invalid_cons. unfold snapshot, resolve. cbn [mapM].
  destruct (fakeProductDatabase !! line_productId p) as [info|]; [|done].
  intros [rest Hrest]%IH. unfold snapshot, resolve in Hrest.
  cbn. rewrite Hrest. by eexists.
Qed.

Lemma snapshot_first_invalid (products : list Line) (items : list Product) :
  snapshot fakeProductDatabase products = Some items →
  first_invalid fakeProductDatabase products = None.
Proof.
  revert items. induction products as [|p products IH]; intros items; [done|].
  rewrite first_invalid_cons. unfold snapshot, resolve. cbn [mapM].
  destruct (fakeProductDatabase !! line_productId p) as [info|]; [|done].
  cbn. fold (resolve fakeProductDatabase). fold (snapshot fakeProductDatabase products).
  destruct (snapshot fakeProductDatabase products) as [rest|] eqn:Hrest; [|done].
  intros _. by apply (IH rest).
Qed.

(** The three ways the loop ends: at the first identifier that reads
    [undefined]; with the snapshot of every line; or, after a member name
    of [Object.prototype], with a total that is [NaN]. *)
Lemma order_loop_cases (products : list Line) :
  (∃ pid, ∀ fullProducts totalAmount,
     order_loop fakeProductDatabase products fullProducts totalAmount = inl pid)
  ∨ (∃ items, snapshot fakeProductDatabase products = Some items
              ∧ ∀ fullProducts totalAmount,
                  order_loop fakeProductDatabase products fullProducts totalAmount =
                  inr (fullProducts ++ items, double_sum totalAmount items))
  ∨ (∀ fullProducts totalAmount,
       ∃ pushed, order_loop fakeProductDatabase products fullProducts totalAmount =
                 inr (pushed, NaN)).
Proof.
  induction products as [|p products IH].
  - right; left. exists []. split; [done|]. intros. cbn. by rewrite app_nil_r.
  - cbn [order_loop]. unfold property.
    destruct (fakeProductDatabase !! line_productId p) as [info|] eqn:Hinfo.
    + destruct IH as [(pid & Hbad)|[(items & Hitems & Hloop)|Hnan]].
      * left. by exists pid.
      * right; left. exists (fullProduct info p :: items). split.
        -- unfold snapshot, resolve in *. cbn [mapM]. rewrite Hinfo. cbn.
           by rewrite Hitems.
        -- intros. rewrite Hloop. by rewrite <- app_assoc.
      * right; right. intros. apply Hnan.
    + case_decide.
      * destruct IH as [(pid & Hbad)|[(items & Hitems & Hloop)|Hnan]].
        -- left. by exists pid.
        -- right; right. intros. rewrite Hloop, js_add_NaN_r, double_sum_NaN.
           by eexists.
        -- right; right. intros. apply Hnan.
      * left. by exists (line_productId p).
Qed.

End Batch.




(** ** Orders *)

Section Orders.

Variable fakeProductDatabase : gmap string ProductInfo.

(** What POST /order pushes, and what PUT /order/:orderId leaves in the
    place of the order it found. *)
Lemma post_order_ok (db : Db) (uid : ObjectId) (products : list Line)
    (couponId shippingId : option string) (now : Date) (oid : ObjectId)
    (user : User) (sd : ShippingData) (items : list Product) :
  lookup_id fakeShippingFeeDatabase shippingId = Some sd →
  products ≠ [] →
  findById db uid = Some user →
  snapshot fakeProductDatabase products = Some items →
  let coupon := lookup_id fakeCouponDatabase couponId in
  let totalAmount := double_totalAmount items (Some (ShippingFee sd)) coupon in
  total_refused totalAmount = false →
  post_order fakeProductDatabase db uid products couponId shippingId now oid =
    (json (OrderCreated "Order created" oid),
     save (set_orders user
             (orders user ++
              [mkOrder oid items (Some (shippingMethod sd)) now totalAmount
                 (Some (ShippingFee sd)) coupon empty_review])) db).
Proof.
  intros Hsd Hne Hfind Hitems coupon totalAmount Htotal. unfold post_order.
  assert (property fakeShippingFeeDatabase (show_id shippingId) = Own sd) as ->.
  { destruct shippingId as [k|]; [|done]. by apply property_Own. }
  destruct products as [|p products]; [done|]. rewrite Hfind.
  rewrite (order_loop_snapshot _ _ _ _ _ Hitems).
  rewrite (own_property _ _ coupon_undefined). fold coupon.
  cbn [app own fmap option_fmap option_map field_number].
  rewrite (apply_coupon_total items (Some (ShippingFee sd)) coupon).
  fold totalAmount. by rewrite Htotal.
Qed.

Lemma put_order_ok (db : Db) (uid orderId : ObjectId) (products : list Line)
    (method : option string) (fee : option Z) (coupon : option Coupon) (now : Date)
    (user : User) (i : nat) (old : Order) (items : list Product) :
  findById db uid = Some user →
  list_find (λ o, order_id o = orderId) (orders user) = Some (i, old) →
  snapshot fakeProductDatabase products = Some items →
  total_refused (double_totalAmount items fee coupon) = false →
  put_order fakeProductDatabase db uid orderId products method fee coupon now =
    (json (Message "Order updated"),
     save (set_orders user
             (<[i := mkOrder (order_id old) items method now
                      (double_totalAmount items fee coupon) fee coupon
                      (order_review old)]> (orders user))) db).
Proof.
  intros Hfind Hold Hitems Htotal. unfold put_order. rewrite Hfind, Hold.
  rewrite (order_loop_snapshot _ _ _ _ _ Hitems). cbn [app].
  rewrite (apply_coupon_total items fee coupon). by rewrite Htotal.
Qed.

Lemma post_order_succeeded (db : Db) (uid : ObjectId) (products : list Line)
    (couponId shippingId : option string) (now : Date) (oid : ObjectId) :
  succeeded (post_order fakeProductDatabase db uid products couponId shippingId
                        now oid).1 →
  ∃ user sd items,
    lookup_id fakeShippingFeeDatabase shippingId = Some sd
    ∧ products ≠ []
    ∧ findById db uid = Some user
    ∧ snapshot fakeProductDatabase products = Some items
    ∧ total_refused
        (double_totalAmount items (Some (ShippingFee sd))
                            (lookup_id fakeCouponDatabase couponId)) = false.
Proof.
  unfold post_order, succeeded.
  destruct (property fakeShippingFeeDatabase (show_id shippingId)) as [sd| |] eqn:Hsd;
    [| |done].
  - apply (Own_property_id _ _ _ shipping_undefined) in Hsd.
    destruct products as [|p products]; [done|].
    destruct (findById db uid) as [user|]; [|done].
    destruct (order_loop_cases fakeProductDatabase (p :: products))
      as [(pid & ->)|[(items & Hitems & ->)|Hnan]]; [done| |].
    + rewrite (own_property _ _ coupon_undefined).
      cbn [app own fmap option_fmap option_map field_number].
      rewrite (apply_coupon_total items (Some (ShippingFee sd))).
      destruct (total_refused _) eqn:Htotal; [done|]. intros _.
      by exists user, sd, items.
    + destruct (Hnan [] (Finite 0)) as [pushed ->].
      by rewrite apply_coupon_NaN.
  - destruct products as [|p products]; [done|].
    destruct (findById db uid) as [user|]; [|done].
    destruct (order_loop _ _ _) as [pid|[pushed total]]; [done|].
    cbn [own fmap option_fmap option_map field_number].
    by rewrite js_add_NaN_r, apply_coupon_NaN.
Qed.

Lemma put_order_succeeded (db : Db) (uid orderId : ObjectId) (products : list Line)
    (method : option string) (fee : option Z) (coupon : option Coupon) (now : Date) :
  succeeded (put_order fakeProductDatabase db uid orderId products method fee
                       coupon now).1 →
  ∃ user i old items,
    findById db uid = Some user
    ∧ list_find (λ o, order_id o = orderId) (orders user) = Some (i, old)
    ∧ snapshot fakeProductDatabase products = Some items
    ∧ total_refused (double_totalAmount items fee coupon) = false.
Proof.
  unfold put_order, succeeded.
  destruct (findById db uid) as [user|]; [|done].
  destruct (list_find _ (orders user)) as [[i old]|] eqn:Hold; [|done].
  destruct (order_loop_cases fakeProductDatabase products)
    as [(pid & ->)|[(items & Hitems & ->)|Hnan]]; [done| |].
  - cbn [app]. rewrite (apply_coupon_total items fee coupon).
    destruct (total_refused _) eqn:Htotal; [done|]. intros _.
    by exists user, i, old, items.
  - destruct (Hnan [] (Finite 0)) as [pushed ->].
    destruct fee; by rewrite ?js_add_NaN_r, apply_coupon_NaN.
Qed.

End Orders.

(** C3. Every order that POST /order pushes and every order that
    PUT /order/:orderId rewrites stores the snapshot of the request lines
    and, as [totalAmount], the sum of [price * quantity] over its stored
    items, plus its stored shipping fee (nothing when the update carries
    none), minus the discount of its stored coupon (nothing when there is
    none), evaluated from left to right in doubles: both handlers store
    the same function of items, fee and coupon.  Where the amounts stay
    within [2 ^ 53] the stored total is the exact value of the formula. *)
Theorem order_total_amount
    (fakeProductDatabase : gmap string ProductInfo) (db : Db) (uid : ObjectId)
    (products : list Line) :
  (∀ couponId shippingId now oid,
     let r := post_order fakeProductDatabase db uid products couponId shippingId
                         now oid in
     succeeded r.1 →
     ∃ user o,
       findById r.2 uid = Some user
       ∧ last (orders user) = Some o
       ∧ order_id o = oid
       ∧ snapshot fakeProductDatabase products = Some (order_products o)
       ∧ order_shippingFee o =
           ShippingFee <$> lookup_id fakeShippingFeeDatabase shippingId
       ∧ order_coupon o = lookup_id fakeCouponDatabase couponId
       ∧ total_consistent o
       ∧ (magnitude (order_products o) (order_shippingFee o) (order_coupon o) ≤ 2 ^ 53 →
          order_totalAmount o =
          Finite (spec_totalAmount (order_products o) (order_shippingFee o)
                                   (order_coupon o))))
  ∧ (∀ orderId method fee coupon now,
       let r := put_order fakeProductDatabase db uid orderId products method fee
                          coupon now in
       succeeded r.1 →
       ∃ user i o,
         findById r.2 uid = Some user
         ∧ orders user !! i = Some o
         ∧ order_id o = orderId
         ∧ snapshot fakeProductDatabase products = Some (order_products o)
         ∧ order_shippingFee o = fee
         ∧ order_coupon o = coupon
         ∧ total_consistent o
         ∧ (magnitude (order_products o) (order_shippingFee o) (order_coupon o) ≤ 2 ^ 53 →
            order_totalAmount o =
            Finite (spec_totalAmount (order_products o) (order_shippingFee o)
                                     (order_coupon o)))).
Proof.
  split.
  - intros couponId shippingId now oid r
      (user & sd & items & Hsd & Hne & Hfind & Hitems & Htotal)%post_order_succeeded.
    subst r.
    rewrite (post_order_ok _ _ _ _ _ _ _ _ _ _ _ Hsd Hne Hfind Hitems Htotal).
    cbn [fst snd]. eexists _, _.
    split; [by apply (findById_saved _ _ user)|].
    cbn [orders set_orders]. split; [apply last_snoc|].
    unfold total_consistent. cbn. rewrite Hsd.
    split_and!; try done. apply double_totalAmount_exact.
  - intros orderId method fee coupon now r
      (user & i & old & items & Hfind & Hold & Hitems & Htotal)%put_order_succeeded.
    subst r. rewrite (put_order_ok _ _ _ _ _ _ _ _ _ _ _ _ _ Hfind Hold Hitems Htotal).
    cbn [fst snd]. eexists _, i, _.
    split; [by apply (findById_saved _ _ user)|].
    cbn [orders set_orders].
    apply list_find_Some in Hold as (Hi & Hid & _).
    split; [apply list_lookup_insert_eq; by eapply lookup_lt_Some|].
    unfold total_consistent. cbn.
    split_and!; try done. apply double_totalAmount_exact.
Qed.

Lemma order_total_amount_witness :
  let r := post_order demo_catalog [bob; carol] "u3" [mkLine "A" 5] (Some "123")
                      (Some "123") 1000 "o1" in
  succeeded r.1
  ∧ ∃ user o,
      findById r.2 "u3" = Some user
      ∧ last (orders user) = Some o
      ∧ order_products o = [apples 5]
      ∧ order_totalAmount o = Finite (5 * 100 + 60 - 20).
Proof.
  intros r. split; [reflexivity|].
  destruct (order_total_amount demo_catalog [bob; carol] "u3" [mkLine "A" 5])
    as [Hcreate _].
  destruct (Hcreate (Some "123") (Some "123") 1000 "o1")
    as (user & o & Hfind & Hlast & _ & Hitems & Hfee & Hcoupon & _ & Hexact);
    [reflexivity|].
  assert (Hitems' : order_products o = [apples 5]).
  { apply (inj Some). rewrite <- Hitems. reflexivity. }
  assert (Hfee' : order_shippingFee o = Some 60) by (rewrite Hfee; reflexivity).
  assert (Hcoupon' : order_coupon o = Some (mkCoupon "折扣20" 20))
    by (rewrite Hcoupon; reflexivity).
  exists user, o. split; [exact Hfind|]. split; [exact Hlast|].
  split; [exact Hitems'|].
  rewrite Hexact; rewrite Hitems', Hfee', Hcoupon'; [reflexivity|by vm_compute].
Defined.

(** C3, as stated, fails where a double cannot hold the exact value: for
    [2 ^ 53] apples at 100 and the fee of 60, the products and the sum
    are rounded to 53 significant bits, and the stored total is 60 below
    the value of the formula. *)
Lemma order_total_is_rounded :
  let r := post_order demo_catalog [bob; carol] "u3" [mkLine "A" 9007199254740992]
                      None (Some "123") 1000 "o1" in
  r.1 = json (OrderCreated "Order created" "o1")
  ∧ ∃ user o,
      findById r.2 "u3" = Some user
      ∧ orders user = [o]
      ∧ order_products o = [apples 9007199254740992]
      ∧ order_shippingFee o = Some 60
      ∧ order_coupon o = None
      ∧ order_totalAmount o = Finite 900719925474099200
      ∧ spec_totalAmount (order_products o) (order_shippingFee o) (order_coupon o)
        = 900719925474099260
      ∧ order_totalAmount o ≠
        Finite (spec_totalAmount (order_products o) (order_shippingFee o)
                                 (order_coupon o)).
Proof. intros r. split; [by vm_compute|]. eexists _, _. by vm_compute. Qed.

(** C6. POST /order with the name of a member of [Object.prototype] as
    shipping identifier: the shipping table has no entry under
    [constructor], yet [fakeShippingFeeDatabase[shippingId]] reads the
    inherited member, the guard passes, the total becomes [NaN] and the
    request ends in the 500 of the rejected save instead of
    [Invalid shippingId]. *)
Theorem order_shipping_id_inherited_name :
  lookup_id fakeShippingFeeDatabase (Some "constructor") = None
  ∧ post_order demo_catalog [bob; carol] "u3" [mkLine "A" 5] None (Some "constructor")
               1000 "o1" = (save_rejected, [bob; carol])
  ∧ status save_rejected = 500
  ∧ save_rejected ≠ InvalidShipping "constructor".
Proof. by vm_compute. Qed.

(** X20. For a shipping and a coupon identifier that are no member names
    of [Object.prototype]: a shipping identifier without entry in the
    shipping table stops POST /order with [Invalid shippingId], whatever
    else the request holds, and nothing is written; a coupon identifier
    without entry in the coupon table never changes the outcome, which is
    that of the request without coupon identifier, and an order that is
    created is stored with no coupon and with the total of items and
    fee. *)
Theorem order_coupon_soft_shipping_hard
    (fakeProductDatabase : gmap string ProductInfo) (db : Db) (uid : ObjectId)
    (products : list Line) (couponId shippingId : option string) (now : Date)
    (oid : ObjectId) :
  plain_id shippingId →
  plain_id couponId →
  let r := post_order fakeProductDatabase db uid products couponId shippingId
                      now oid in
  (lookup_id fakeShippingFeeDatabase shippingId = None →
   r = (InvalidShipping (show_id shippingId), db))
  ∧ (lookup_id fakeCouponDatabase couponId = None →
     r = post_order fakeProductDatabase db uid products None shippingId now oid
     ∧ (succeeded r.1 →
        ∃ user o,
          findById r.2 uid = Some user
          ∧ last (orders user) = Some o
          ∧ order_id o = oid
          ∧ order_coupon o = None
          ∧ order_totalAmount o =
              double_totalAmount (order_products o) (order_shippingFee o) None)).
Proof.
  intros Hshipping Hcoupon r. split.
  - intros Hsd. subst r. unfold post_order.
    rewrite property_plain by done.
    assert (fakeShippingFeeDatabase !! show_id shippingId = None) as ->; [|done].
    destruct shippingId as [k|]; [exact Hsd|apply shipping_undefined].
  - intros Hnone.
    assert (Hread : property fakeCouponDatabase (show_id couponId) = Absent).
    { rewrite property_plain by done.
      assert (fakeCouponDatabase !! show_id couponId = None) as ->; [|done].
      destruct couponId as [k|]; [exact Hnone|apply coupon_undefined]. }
    split.
    + subst r. unfold post_order. by rewrite Hread.
    + intros (user & sd & items & Hsd & Hne & Hfind & Hitems & Htotal)%post_order_succeeded.
      subst r.
      rewrite (post_order_ok _ _ _ _ _ _ _ _ _ _ _ Hsd Hne Hfind Hitems Htotal).
      cbn [fst snd]. eexists _, _.
      split; [by apply (findById_saved _ _ user)|].
      cbn [orders set_orders]. split; [apply last_snoc|].
      cbn. by rewrite Hnone.
Qed.

Lemma order_coupon_soft_shipping_hard_witness :
  plain_id (Some "000")
  ∧ plain_id (Some "123")
  ∧ lookup_id fakeCouponDatabase (Some "000") = None
  ∧ lookup_id fakeShippingFeeDatabase (Some "000") = None
  ∧ post_order demo_catalog [bob; carol] "u3" [mkLine "A" 5] (Some "000") (Some "123")
               1000 "o1" =
      (json (OrderCreated "Order created" "o1"),
       [bob; set_orders carol
               [mkOrder "o1" [apples 5] (Some "超商") 1000 (Finite 560) (Some 60) None
                        empty_review]])
  ∧ post_order demo_catalog [bob; carol] "u3" [mkLine "A" 5] (Some "123") (Some "000")
               1000 "o1" =
      (InvalidShipping "000", [bob; carol]).
Proof.
  assert (H000 : plain_id (Some "000")) by (apply (bool_decide_unpack _); by vm_compute).
  assert (H123 : plain_id (Some "123")) by (apply (bool_decide_unpack _); by vm_compute).
  split; [exact H000|]. split; [exact H123|].
  split; [reflexivity|]. split; [reflexivity|]. split.
  - destruct (order_coupon_soft_shipping_hard demo_catalog [bob; carol] "u3"
                [mkLine "A" 5] (Some "000") (Some "123") 1000 "o1" H123 H000)
      as [_ Hcoupon].
    destruct Hcoupon as [Hsame _]; [reflexivity|].
    rewrite Hsame. reflexivity.
  - destruct (order_coupon_soft_shipping_hard demo_catalog [bob; carol] "u3"
                [mkLine "A" 5] (Some "123") (Some "000") 1000 "o1" H000 H123)
      as [Hshipping _].
    by apply Hshipping.
Defined.

(** ** The cart invariant *)

Section CartInvariant.

Variable fakeProductDatabase : gmap string ProductInfo.

Lemma productIds_set_quantity (pid : string) (c : list Product) (i : nat)
    (existing : Product) (q : Z) :
  list_find (λ item, productId item = pid) c = Some (i, existing) →
  productId <$> <[i := set_quantity existing q]> c = productId <$> c.
Proof.
  intros (Hi & _ & _)%list_find_Some.
  rewrite list_fmap_insert. apply list_insert_id.
  by rewrite list_lookup_fmap, Hi.
Qed.

Lemma unique_products_push (pid : string) (c : list Product) (item : Product) :
  list_find (λ item, productId item = pid) c = None →
  productId item = pid →
  unique_products c → unique_products (c ++ [item]).
Proof.
  unfold unique_products. intros Hnone Hpid Hc.
  rewrite fmap_app. apply NoDup_app. split_and!; [done| |apply NoDup_singleton].
  intros x (y & -> & Hy)%list_elem_of_fmap Hx%list_elem_of_singleton.
  apply list_find_None in Hnone. rewrite Forall_forall in Hnone.
  apply (Hnone y Hy). cbn in Hx. congruence.
Qed.

(** The loop of POST /cart never makes two entries with one [productId]. *)
Lemma cart_loop_unique (products : list Line) (c c' : list Product) :
  unique_products c →
  cart_loop fakeProductDatabase products c = inr c' →
  unique_products c'.
Proof.
  revert c. induction products as [|p products IH]; intros c Hc; cbn [cart_loop].
  - by intros [= <-].
  - destruct (fakeProductDatabase !! line_productId p) as [info|]; [|done].
    destruct (list_find _ c) as [[i existing]|] eqn:Hfind; apply IH.
    + unfold unique_products. by erewrite productIds_set_quantity.
    + by eapply unique_products_push.
Qed.

(** It keeps quantities at 1 or more provided every incoming quantity is. *)
Lemma cart_loop_positive (products : list Line) (c c' : list Product) :
  Forall (λ p, 1 ≤ line_quantity p) products →
  positive_quantities c →
  cart_loop fakeProductDatabase products c = inr c' →
  positive_quantities c'.
Proof.
  intros Hlines. revert c.
  induction Hlines as [|p products Hp _ IH]; intros c Hc; cbn [cart_loop].
  - by intros [= <-].
  - destruct (fakeProductDatabase !! line_productId p) as [info|]; [|done].
    destruct (list_find _ c) as [[i existing]|] eqn:Hfind; apply IH.
    + apply list_find_Some in Hfind as (Hi & _ & _).
      apply Forall_insert; [done|]. cbn.
      unfold positive_quantities in Hc. rewrite Forall_lookup in Hc.
      specialize (Hc i existing Hi). cbn in Hc. lia.
    + apply Forall_app. split; [done|]. by apply Forall_singleton.
Qed.

(** Under one catalog, every entry that the loop leaves in the cart has a
    catalog record. *)
Lemma cart_loop_resolvable (products : list Line) (c c' : list Product) :
  Forall (λ item, is_Some (fakeProductDatabase !! productId item)) c →
  cart_loop fakeProductDatabase products c = inr c' →
  Forall (λ item, is_Some (fakeProductDatabase !! productId item)) c'.
Proof.
  revert c. induction products as [|p products IH]; intros c Hc; cbn [cart_loop].
  - by intros [= <-].
  - destruct (fakeProductDatabase !! line_productId p) as [info|] eqn:Hinfo; [|done].
    destruct (list_find _ c) as [[i existing]|] eqn:Hfind; apply IH.
    + apply list_find_Some in Hfind as (Hi & Hpid & _).
      apply Forall_insert; [done|]. cbn. rewrite Hpid, Hinfo. by eexists.
    + apply Forall_app. split; [done|]. apply Forall_singleton.
      cbn. rewrite Hinfo. by eexists.
Qed.

(** DELETE /cart keeps both parts of the invariant. *)
Lemma delete_cart_invariant (productIds : list string) (c : list Product) :
  unique_products c → positive_quantities c →
  unique_products (filter (λ p, productId p ∉ productIds) c)
  ∧ positive_quantities (filter (λ p, productId p ∉ productIds) c).
Proof.
  intros Hu Hq. split.
  - unfold unique_products in *.
    apply (sublist_NoDup _ (productId <$> c)); [exact Hu|].
  apply fmap_sublist, sublist_filter.
  - unfold positive_quantities in *. rewrite Forall_forall in *.
    intros x [_ Hx]%list_elem_of_filter. by apply Hq.
Qed.

(** PUT /cart/:productId keeps both parts of the invariant. *)
Lemma put_cart_invariant (pid : string) (c : list Product) (i : nat)
    (item : Product) (qty : Z) :
  ¬ qty < 1 →
  list_find (λ p, productId p = pid) c = Some (i, item) →
  unique_products c → positive_quantities c →
  unique_products (<[i := set_quantity item qty]> c)
  ∧ positive_quantities (<[i := set_quantity item qty]> c).
Proof.
  intros Hqty Hfind Hu Hq. split.
  - unfold unique_products. by erewrite productIds_set_quantity.
  - apply Forall_insert; [done|]. cbn. lia.
Qed.

(** Every successful cart request is a step of the cart. *)
Lemma post_cart_step (db : Db) (uid : ObjectId) (products : list Line) (user : User) :
  findById db uid = Some user →
  succeeded (post_cart fakeProductDatabase db uid products).1 →
  ∃ c', cart_step fakeProductDatabase (cart user) c'
        ∧ findById (post_cart fakeProductDatabase db uid products).2 uid =
            Some (set_cart user c').
Proof.
  intros Hfind. unfold post_cart. destruct products as [|p products]; [done|].
  rewrite Hfind.
  destruct (cart_loop _ (p :: products) (cart user)) as [pid|c'] eqn:Hloop; [done|].
  intros _. exists c'. split; [by eapply cart_step_add|].
  by apply (findById_saved _ _ user).
Qed.

Lemma delete_cart_step (db : Db) (uid : ObjectId) (productIds : list string)
    (user : User) :
  findById db uid = Some user →
  succeeded (delete_cart db uid productIds).1 →
  ∃ c', cart_step fakeProductDatabase (cart user) c'
        ∧ findById (delete_cart db uid productIds).2 uid = Some (set_cart user c').
Proof.
  intros Hfind. unfold delete_cart. destruct productIds as [|x productIds]; [done|].
  rewrite Hfind. case_decide; [done|].
  intros _. eexists. split; [by apply (cart_step_delete _ (x :: productIds))|].
  by apply (findById_saved _ _ user).
Qed.

Lemma put_cart_step (db : Db) (uid : ObjectId) (pid : string) (qty : option Z)
    (user : User) :
  findById db uid = Some user →
  succeeded (put_cart db uid pid qty).1 →
  ∃ c', cart_step fakeProductDatabase (cart user) c'
        ∧ findById (put_cart db uid pid qty).2 uid = Some (set_cart user c').
Proof.
  intros Hfind. unfold put_cart. destruct qty as [qty|]; [|done].
  case_decide; [done|]. rewrite Hfind.
  destruct (list_find _ (cart user)) as [[i item]|] eqn:Hitem; [|done].
  intros _. eexists. split; [by eapply cart_step_put|].
  by apply (findById_saved _ _ user).
Qed.

(** No reachable cart holds two entries with one [productId]. *)
Lemma reachable_cart_unique (c : list Product) :
  reachable_cart fakeProductDatabase c → unique_products c.
Proof.
  unfold reachable_cart. revert c. apply rtc_ind_r; [by apply NoDup_nil|].
  intros c c' Hc Hstep IH.
  destruct Hstep as [products c c' Hloop|productIds c|pid qty i item c Hqty Hitem].
  - by eapply cart_loop_unique.
  - unfold unique_products in *.
    apply (sublist_NoDup _ (productId <$> c)); [exact IH|].
    apply fmap_sublist, sublist_filter.
  - unfold unique_products. by erewrite productIds_set_quantity.
Qed.

End CartInvariant.

(** C9. The part of the invariant on quantities is broken by POST /cart,
    which pushes or adds whatever quantity the request carries, whereas
    PUT /cart/:productId answers [Invalid quantity] for the same value.
    A user registered on an empty collection reaches a cart whose only
    entry has quantity 0, and a cart entry of quantity 2 is merged with an
    incoming -5 into -3. *)
Theorem cart_add_stores_quantity_below_one :
  let db := (post_register demo_lib [] (Some "dave@example.com") (Some "pw") "u4").2 in
  let r := post_cart demo_catalog db "u4" [mkLine "A" 0] in
  findById db "u4" = Some (mkUser "u4" "dave@example.com" "hash:pw" [] [] [])
  ∧ r.1 = json (CartUpdated "Add to cart successfully" [apples 0])
  ∧ cart <$> findById r.2 "u4" = Some [apples 0]
  ∧ reachable_cart demo_catalog [apples 0]
  ∧ ¬ positive_quantities [apples 0]
  ∧ unique_products [apples 0]
  ∧ put_cart r.2 "u4" "A" (Some 0) = (InvalidQuantity, r.2)
  ∧ post_cart demo_catalog [carol] "u3" [mkLine "A" (-5)] =
      (json (CartUpdated "Add to cart successfully" [apples (-3)]),
       [set_cart carol [apples (-3)]]).
Proof.
  cbv zeta. split_and!; try by vm_compute.
  - apply rtc_once. by apply (cart_step_add _ [mkLine "A" 0]).
  - intros H. apply Forall_inv in H. cbn in H. lia.
  - unfold unique_products. cbn. apply NoDup_singleton.
Qed.

(** ** Reviews *)

Lemma list_find_insert_same {A} (P : A → Prop) `{!∀ x, Decision (P x)}
    (l : list A) (i : nat) (x y : A) :
  list_find P l = Some (i, x) → P y →
  list_find P (<[i := y]> l) = Some (i, y).
Proof.
  intros (Hi & _ & Hleast)%list_find_Some Hy. apply list_find_Some.
  split_and!.
  - apply list_lookup_insert_eq. by eapply lookup_lt_Some.
  - done.
  - intros j z Hj Hlt. rewrite list_lookup_insert_ne in Hj by lia. eauto.
Qed.

Lemma rating_rejected_Numeric (q : Q) :
  rating_rejected (Numeric q) = false ↔ (1 <= q)%Q ∧ (q <= 5)%Q.
Proof.
  cbn. destruct (Qlt_le_dec q 1) as [Hlt|Hle], (Qlt_le_dec 5 q) as [Hgt|Hge];
    rewrite ?orb_true_r; cbn.
  - split; [done|]. intros [H1 _]. by apply Qlt_not_le in Hlt.
  - split; [done|]. intros [H1 _]. by apply Qlt_not_le in Hlt.
  - split; [done|]. intros [_ H5]. by apply Qlt_not_le in Hgt.
  - rewrite orb_false_r. split; [done|]. intros _.
    destruct (Qeq_bool q 0) eqn:E; [|done].
    apply Qeq_bool_eq in E. rewrite E in Hle. by compute in Hle.
Qed.

(** Within the accepted range [parseInt] is the integer part. *)
Lemma parseInt_floor (q : Q) :
  (1 <= q)%Q → (q <= 5)%Q →
  parseInt (Numeric q) = Some (Qfloor q) ∧ 1 ≤ Qfloor q ≤ 5.
Proof.
  intros H1 H5. destruct q as [n d]. cbn.
  assert (Hn : 0 ≤ n).
  { unfold Qle in H1. cbn in H1. lia. }
  rewrite Z.quot_div_nonneg by lia. split; [done|].
  change (n / Z.pos d) with (Qfloor (n # d)).
  split.
  - change 1 with (Qfloor 1). by apply Qfloor_resp_le.
  - change 5 with (Qfloor 5). by apply Qfloor_resp_le.
Qed.

Lemma parseInt_integer (n : Z) : parseInt (Numeric (inject_Z n)) = Some n.
Proof. cbn. by rewrite Z.quot_1_r. Qed.

(** A text made of digits only denotes the number its digits spell. *)
Lemma decimal_value_whole (whole : Decimal.uint) :
  (decimal_value whole Decimal.Nil None == inject_Z (Z.of_N (N.of_uint whole)))%Q.
Proof. unfold decimal_value. cbn. unfold Qeq. cbn. lia. Qed.

Lemma rating_rejected_digits (whole : Decimal.uint) :
  1 ≤ Z.of_N (N.of_uint whole) ≤ 5 →
  rating_rejected (DecimalText false whole Decimal.Nil None) = false
  ∧ parseInt (DecimalText false whole Decimal.Nil None) = Some (Z.of_N (N.of_uint whole)).
Proof.
  intros Hrange. split.
  - cbn [rating_rejected orb].
    destruct (Qlt_le_dec _ rounds_to_1) as [Hlt|_].
    { rewrite decimal_value_whole in Hlt. unfold Qlt, rounds_to_1 in Hlt.
      cbn in Hlt. lia. }
    destruct (Qlt_le_dec rounds_to_5 _) as [Hgt|_]; [|done].
    rewrite decimal_value_whole in Hgt. unfold Qlt, rounds_to_5 in Hgt.
    cbn in Hgt. lia.
  - cbn. destruct whole; [by cbn in Hrange; lia|done..].
Qed.

Lemma non_empty_review_exists (order : Order) :
  non_empty_review (order_review order) →
  review_exists order = true.
Proof.
  intros Hne. unfold review_exists. cbv zeta.
  destruct Hne as [(c & -> & Hc)|[(z & -> & Hz)|Himages]].
  - rewrite bool_decide_eq_true_2; [done|]. destruct c; [done|cbn; lia].
  - rewrite (bool_decide_eq_true_2 (z ≠ 0)) by lia. by rewrite orb_true_r.
  - rewrite (bool_decide_eq_true_2 (0 < length _)%nat); [by rewrite orb_true_r|].
    destruct (imageFiles (order_review order)); [done|cbn; lia].
Qed.

Lemma post_review_ok (db : Db) (uid orderId : ObjectId) (body_comment : option string)
    (body_rating : RatingValue) (files : list Buffer) (user : User) (i : nat)
    (order : Order) (z : Z) :
  rating_rejected body_rating = false →
  findById db uid = Some user →
  list_find (λ o, order_id o = orderId) (orders user) = Some (i, order) →
  review_exists order = false →
  parseInt body_rating = Some z →
  1 ≤ z ≤ 5 →
  post_review db uid orderId body_comment body_rating files =
    (json (Message "Review added successfully"),
     save (set_orders user
             (<[i := set_review order
                       (mkReview (Some (default "" (truthy body_comment)))
                                 (Some z) files)]>
                (orders user))) db).
Proof.
  intros Hrating Hfind Horder Hnone Hparse Hrange. unfold post_review.
  rewrite Hrating, Hfind, Horder, Hnone, Hparse. cbn [rating rating_accepted].
  by rewrite bool_decide_eq_true_2.
Qed.

(** A rating that passed the guard and that the schema refuses: the
    rejected save is caught, and nothing is written. *)
Lemma post_review_caught (db : Db) (uid orderId : ObjectId)
    (body_comment : option string) (body_rating : RatingValue) (files : list Buffer)
    (user : User) (i : nat) (order : Order) :
  rating_rejected body_rating = false →
  findById db uid = Some user →
  list_find (λ o, order_id o = orderId) (orders user) = Some (i, order) →
  review_exists order = false →
  rating_accepted (parseInt body_rating) = false →
  post_review db uid orderId body_comment body_rating files = (caught, db).
Proof.
  intros Hrating Hfind Horder Hnone Hrefused. unfold post_review.
  rewrite Hrating, Hfind, Horder, Hnone. cbn [rating]. by rewrite Hrefused.
Qed.

Lemma post_review_succeeded (db : Db) (uid orderId : ObjectId)
    (body_comment : option string) (body_rating : RatingValue) (files : list Buffer) :
  succeeded (post_review db uid orderId body_comment body_rating files).1 →
  ∃ user i order z,
    rating_rejected body_rating = false
    ∧ findById db uid = Some user
    ∧ list_find (λ o, order_id o = orderId) (orders user) = Some (i, order)
    ∧ review_exists order = false
    ∧ parseInt body_rating = Some z
    ∧ 1 ≤ z ≤ 5.
Proof.
  unfold post_review, succeeded.
  destruct (rating_rejected body_rating) eqn:Hrating; [done|].
  destruct (findById db uid) as [user|] eqn:Hfind; [|done].
  destruct (list_find _ (orders user)) as [[i order]|] eqn:Horder; [|done].
  destruct (review_exists order) eqn:Hnone; [done|]. cbn [rating rating_accepted].
  destruct (parseInt body_rating) as [z|] eqn:Hparse; [|done].
  unfold rating_accepted. case_bool_decide as Hrange; [|done]. intros _.
  by exists user, i, order, z.
Qed.

Lemma delete_review_ok (db : Db) (uid orderId : ObjectId) (user : User) (i : nat)
    (order : Order) :
  findById db uid = Some user →
  list_find (λ o, order_id o = orderId) (orders user) = Some (i, order) →
  delete_review db uid orderId =
    (json (Message "Review deleted"),
     save (set_orders user (<[i := set_review order empty_review]> (orders user))) db).
Proof.
  intros Hfind Horder. unfold delete_review. by rewrite Hfind, Horder.
Qed.

Lemma findById_review_saved (db : Db) (uid orderId : ObjectId) (user : User)
    (i : nat) (order : Order) (r : Review) :
  findById db uid = Some user →
  list_find (λ o, order_id o = orderId) (orders user) = Some (i, order) →
  findById (save (set_orders user (<[i := set_review order r]> (orders user))) db) uid
    = Some (set_orders user (<[i := set_review order r]> (orders user)))
  ∧ list_find (λ o, order_id o = orderId) (<[i := set_review order r]> (orders user))
    = Some (i, set_review order r).
Proof.
  intros Hfind Horder. split; [by apply (findById_saved _ _ user)|].
  apply (list_find_insert_same (λ o, order_id o = orderId) _ _ order); [done|].
  apply list_find_Some in Horder. by destruct Horder as (_ & ? & _).
Qed.

(** C8. The rating guard runs first: a rating that is missing, is a text
    that is not numeric, or is a number or a text in decimal notation
    whose value as a double is below 1 or above 5 is answered
    [Rating must be a number from 1 to 5] and nothing is written.  Every
    number from 1 to 5 passes the guard, whole or not.  Where the order
    exists and has no review yet and [parseInt] reads from the rating a
    number from 1 to 5, the review is stored with that number: for a JSON
    number from 1 to 5 it is the integer part, and for a whole rating,
    sent as a number or spelled in digits, the rating itself. *)
Theorem review_rating_checked
    (db : Db) (uid orderId : ObjectId) (body_comment : option string)
    (body_rating : RatingValue) (files : list Buffer) :
  (rating_rejected body_rating = true →
   post_review db uid orderId body_comment body_rating files = (InvalidRating, db))
  ∧ (body_rating = Undefined ∨ (∃ text, body_rating = NotNumeric text) →
     rating_rejected body_rating = true)
  ∧ (∀ q, body_rating = Numeric q →
          (rating_rejected body_rating = true ↔ (q < 1 ∨ 5 < q)%Q))
  ∧ (∀ negative whole fraction exponent,
       body_rating = DecimalText negative whole fraction exponent →
       let v := decimal_value whole fraction exponent in
       rating_rejected body_rating = true ↔
       negative = true ∨ (v < rounds_to_1)%Q ∨ (rounds_to_5 < v)%Q)
  ∧ (∀ user i order z,
       rating_rejected body_rating = false →
       parseInt body_rating = Some z →
       1 ≤ z ≤ 5 →
       findById db uid = Some user →
       list_find (λ o, order_id o = orderId) (orders user) = Some (i, order) →
       review_exists order = false →
       let r := post_review db uid orderId body_comment body_rating files in
       r.1 = json (Message "Review added successfully")
       ∧ ∃ user',
           findById r.2 uid = Some user'
           ∧ orders user' !! i =
               Some (set_review order
                       (mkReview (Some (default "" (truthy body_comment)))
                                 (Some z) files)))
  ∧ (∀ q, body_rating = Numeric q → (1 <= q)%Q → (q <= 5)%Q →
          rating_rejected body_rating = false
          ∧ parseInt body_rating = Some (Qfloor q)
          ∧ 1 ≤ Qfloor q ≤ 5
          ∧ (∀ n, q = inject_Z n → Qfloor q = n))
  ∧ (∀ whole, body_rating = DecimalText false whole Decimal.Nil None →
              1 ≤ Z.of_N (N.of_uint whole) ≤ 5 →
              rating_rejected body_rating = false
              ∧ parseInt body_rating = Some (Z.of_N (N.of_uint whole))).
Proof.
  split_and!.
  - intros Hrej. unfold post_review. by rewrite Hrej.
  - by intros [->|[text ->]].
  - intros q ->.
    destruct (rating_rejected (Numeric q)) eqn:Hrej.
    + split; [intros _|done].
      destruct (Qlt_le_dec q 1) as [?|H1]; [by left|].
      destruct (Qlt_le_dec 5 q) as [?|H5]; [by right|].
      assert (rating_rejected (Numeric q) = false) as Hacc; [|congruence].
      by apply rating_rejected_Numeric.
    + apply rating_rejected_Numeric in Hrej as [H1 H5].
      split; [done|]. intros [Hlt|Hgt].
      * by apply Qlt_not_le in Hlt.
      * by apply Qlt_not_le in Hgt.
  - intros negative whole fraction exponent -> v. cbn [rating_rejected]. fold v.
    destruct negative; cbn [orb]; [by split; [left|]|].
    destruct (Qlt_le_dec v rounds_to_1) as [Hlt|Hle]; cbn [orb];
      [by split; [right; left|]|].
    destruct (Qlt_le_dec rounds_to_5 v) as [Hgt|Hge]; [by split; [right; right|]|].
    split; [done|]. intros [?|[Hlt|Hgt]]; [done| |].
    + by apply Qlt_not_le in Hlt.
    + by apply Qlt_not_le in Hgt.
  - intros user i order z Hrating Hparse Hrange Hfind Horder Hnone r. subst r.
    rewrite (post_review_ok _ _ _ _ _ _ _ _ _ _ Hrating Hfind Horder Hnone Hparse Hrange).
    cbn [fst snd]. split; [done|]. eexists.
    split; [by apply (findById_saved _ _ user)|].
    cbn [orders set_orders]. apply list_lookup_insert_eq.
    apply list_find_Some in Horder as (Hi & _). by eapply lookup_lt_Some.
  - intros q -> H1 H5. destruct (parseInt_floor q H1 H5) as [Hparse Hrange].
    split; [by apply rating_rejected_Numeric|]. split; [done|]. split; [done|].
    intros n ->. apply Qfloor_Z.
  - intros whole -> Hrange. by apply rating_rejected_digits.
Qed.

Lemma review_rating_checked_witness :
  let r := post_review [erin] "u5" "o1" None (Numeric 5) [] in
  r.1 = json (Message "Review added successfully")
  ∧ ∃ user',
      findById r.2 "u5" = Some user'
      ∧ orders user' !! 0%nat = Some (set_review order1 five_stars).
Proof.
  destruct (review_rating_checked [erin] "u5" "o1" None (Numeric 5) [])
    as (_ & _ & _ & _ & Hstored & _).
  by apply (Hstored erin 0%nat order1 5).
Defined.

(** C8, as stated, fails for a rating that is not whole: 4.5 passes the
    guard and the review is stored with rating 4. *)
Lemma review_rating_fraction_accepted :
  (∀ n : Z, ¬ (inject_Z n == 9 # 2)%Q)
  ∧ post_review [erin] "u5" "o1" (Some "fine") (Numeric (9 # 2)) [] =
      (json (Message "Review added successfully"),
       [set_orders erin
          [set_review order1 (mkReview (Some "fine") (Some 4) [])]])
  ∧ (post_review [erin] "u5" "o1" (Some "fine") (Numeric (9 # 2)) []).1 ≠ InvalidRating.
Proof.
  split; [|by vm_compute].
  intros n. unfold Qeq. cbn. lia.
Qed.

(** C7. On an order that carries a non-empty review, a further attach
    request writes nothing; it is answered [Review already exists] when
    its rating passes the rating guard, which runs first, and
    [Rating must be a number from 1 to 5] otherwise.  DELETE on that order
    clears the review, and an attach request whose rating passes the guard
    and is read by [parseInt] as a number from 1 to 5 then succeeds and
    stores its review. *)
Theorem review_attached_once
    (db : Db) (uid orderId : ObjectId) (user : User) (i : nat) (order : Order) :
  findById db uid = Some user →
  list_find (λ o, order_id o = orderId) (orders user) = Some (i, order) →
  non_empty_review (order_review order) →
  (∀ body_comment body_rating files,
     post_review db uid orderId body_comment body_rating files =
       (if rating_rejected body_rating then InvalidRating else AlreadyExists, db))
  ∧ (let cleared := delete_review db uid orderId in
     cleared.1 = json (Message "Review deleted")
     ∧ ∃ user',
         findById cleared.2 uid = Some user'
         ∧ orders user' = <[i := set_review order empty_review]> (orders user))
  ∧ (∀ body_comment body_rating files z,
       rating_rejected body_rating = false →
       parseInt body_rating = Some z →
       1 ≤ z ≤ 5 →
       let cleared := (delete_review db uid orderId).2 in
       let attached := post_review cleared uid orderId body_comment body_rating files in
       let review := mkReview (Some (default "" (truthy body_comment))) (Some z) files in
       attached.1 = json (Message "Review added successfully")
       ∧ (∃ user'',
            findById attached.2 uid = Some user''
            ∧ orders user'' = <[i := set_review order review]> (orders user))
       ∧ review_exists (set_review order review) = true).
Proof.
  intros Hfind Horder Hne.
  pose proof (non_empty_review_exists _ Hne) as Hexists.
  pose proof (delete_review_ok _ _ _ _ _ _ Hfind Horder) as Hdelete.
  destruct (findById_review_saved db uid orderId user i order empty_review Hfind Horder)
    as [Hfind' Horder'].
  split_and!.
  - intros body_comment body_rating files. unfold post_review.
    destruct (rating_rejected body_rating); [done|].
    by rewrite Hfind, Horder, Hexists.
  - rewrite Hdelete. cbn [fst snd]. split; [done|]. by eexists.
  - intros body_comment body_rating files z Hrating Hparse Hrange cleared attached review.
    subst cleared attached. rewrite Hdelete. cbn [snd].
    set (user' := set_orders user (<[i := set_review order empty_review]> (orders user))).
    rewrite (post_review_ok (save user' db) uid orderId body_comment body_rating
               files user' i (set_review order empty_review) z);
      [|done|done|done|done|done|done].
    cbn [fst snd]. split_and!.
    + done.
    + eexists. split.
      * apply (findById_saved _ _ user'); [done|]. done.
      * subst user'. cbn [orders set_orders]. by rewrite list_insert_insert_eq.
    + unfold review_exists. cbn.
      rewrite (bool_decide_eq_true_2 (z ≠ 0)) by lia. by rewrite orb_true_r.
Qed.

Lemma review_attached_once_witness :
  let reviewed := set_orders erin [set_review order1 five_stars] in
  non_empty_review five_stars
  ∧ post_review [reviewed] "u5" "o1" (Some "again") (Numeric 3) [] =
      (AlreadyExists, [reviewed])
  ∧ (delete_review [reviewed] "u5" "o1").1 = json (Message "Review deleted")
  ∧ (post_review (delete_review [reviewed] "u5" "o1").2 "u5" "o1" (Some "again")
                 (Numeric 3) []).1 = json (Message "Review added successfully").
Proof.
  intros reviewed.
  assert (Hne : non_empty_review five_stars).
  { right; left. exists 5. by split. }
  destruct (review_attached_once [reviewed] "u5" "o1" reviewed 0%nat
              (set_review order1 five_stars))
    as (Hsecond & Hdelete & Hagain); [reflexivity|reflexivity|exact Hne|].
  split; [exact Hne|]. split; [apply Hsecond|]. split; [apply Hdelete|].
  by destruct (Hagain (Some "again") (Numeric 3) [] 3) as [Hpost _].
Defined.

(** C7, as stated, fails for a second attach request whose rating the
    rating guard rejects: on the reviewed order the answer is
    [Rating must be a number from 1 to 5], not [Review already exists]. *)
Lemma review_second_attach_bad_rating :
  let reviewed := set_orders erin [set_review order1 five_stars] in
  review_exists (set_review order1 five_stars) = true
  ∧ post_review [reviewed] "u5" "o1" (Some "again") (Numeric 9) [] =
      (InvalidRating, [reviewed])
  ∧ InvalidRating ≠ AlreadyExists.
Proof. by vm_compute. Qed.

(** * Further properties of the handlers *)

(** ** Removing from the cart and setting a quantity *)

Lemma filter_all {A} (P : A → Prop) `{!∀ x, Decision (P x)} (l : list A) :
  (∀ x, x ∈ l → P x) → filter P l = l.
Proof.
  induction l as [|x l IH]; intros Hall; [done|].
  rewrite filter_cons_True by (apply Hall; left).
  f_equal. apply IH. intros y Hy. apply Hall. by right.
Qed.

(** Saving twice under one [_id] leaves the second version. *)
Lemma save_save (u1 u2 : User) (db : Db) :
  user_id u2 = user_id u1 → save u2 (save u1 db) = save u2 db.
Proof.
  intros Hid. unfold save. rewrite <- list_fmap_compose.
  apply list_fmap_ext. intros i v _. cbn.
  destruct (decide (user_id v = user_id u1)) as [Hv|Hv].
  - rewrite decide_True by done. by rewrite decide_True by congruence.
  - done.
Qed.

(** X1. DELETE /cart for an existing user and a non-empty list of
    identifiers: when no cart entry carries a listed identifier the answer
    is 404 and nothing is written; otherwise every entry carrying a listed
    identifier is removed in one write, the other entries stay in their
    order, and the message counts the removed entries, at least one. *)
Theorem delete_cart_removes_listed
    (db : Db) (uid : ObjectId) (productIds : list string) (user : User) :
  findById db uid = Some user →
  productIds ≠ [] →
  let kept := filter (λ p, productId p ∉ productIds) (cart user) in
  let removed := (length (cart user) - length kept)%nat in
  let r := delete_cart db uid productIds in
  ((∀ p, p ∈ cart user → productId p ∉ productIds) →
   r = (status_json 404 "No matching products found in cart", db))
  ∧ ((∃ p, p ∈ cart user ∧ productId p ∈ productIds) →
     r = (json (Message ("🗑️ Deleted " +:+ pretty removed +:+ " product(s) from cart")),
          save (set_cart user kept) db)
     ∧ findById r.2 uid = Some (set_cart user kept)
     ∧ (0 < removed)%nat
     ∧ (length kept + removed = length (cart user))%nat
     ∧ (∀ p, p ∈ kept ↔ p ∈ cart user ∧ productId p ∉ productIds)
     ∧ kept `sublist_of` cart user).
Proof.
  intros Hfind Hne kept removed r. subst r. unfold delete_cart.
  destruct productIds as [|x productIds]; [done|]. rewrite Hfind. cbn zeta.
  fold kept. fold removed. split.
  - intros Hnone. assert (kept = cart user) as Hkept by (by apply filter_all).
    rewrite decide_True; [done|]. subst removed. rewrite Hkept. lia.
  - intros (p & Hp & Hlisted).
    assert (length kept < length (cart user))%nat as Hlt.
    { apply (length_filter_lt _ _ p); [done|]. by intros Hnot. }
    rewrite decide_False by (subst removed; lia). cbn [fst snd].
    split_and!; try done.
    + by apply (findById_saved _ _ user).
    + subst removed. lia.
    + subst removed. lia.
    + intros q. subst kept. rewrite list_elem_of_filter. tauto.
    + apply sublist_filter.
Qed.

Lemma delete_cart_removes_listed_witness :
  findById [bob; carol] "u3" = Some carol
  ∧ delete_cart [bob; carol] "u3" ["B"; "A"] =
      (json (Message "🗑️ Deleted 1 product(s) from cart"), [bob; set_cart carol []]).
Proof.
  split; [reflexivity|].
  destruct (delete_cart_removes_listed [bob; carol] "u3" ["B"; "A"] carol)
    as [_ Hremoved]; [reflexivity|done|].
  destruct Hremoved as (Hr & _).
  - exists (apples 2). split; [by left|]. cbn. set_solver.
  - exact Hr.
Defined.

Lemma put_cart_ok (db : Db) (uid : ObjectId) (pid : string) (q : Z) (user : User)
    (i : nat) (item : Product) :
  1 ≤ q →
  findById db uid = Some user →
  list_find (λ p, productId p = pid) (cart user) = Some (i, item) →
  put_cart db uid pid (Some q) =
    (json (Message "Cart updated successfully"),
     save (set_cart user (<[i := set_quantity item q]> (cart user))) db).
Proof.
  intros Hq Hfind Hitem. unfold put_cart.
  rewrite decide_False by lia. by rewrite Hfind, Hitem.
Qed.

(** X2. PUT /cart/:productId.  A quantity that is not a number or is
    below 1 is answered [Invalid quantity] before anything is read.  For
    an existing user and a quantity of 1 or more: a product that the cart
    does not hold is answered 404 and nothing is written; otherwise the
    first entry of the product gets the quantity, every other entry and
    the order of the entries stay, and sending the same request again
    succeeds and changes nothing more. *)
Theorem put_cart_overwrites_quantity
    (db : Db) (uid : ObjectId) (pid : string) (qty : option Z) (user : User) :
  findById db uid = Some user →
  let r := put_cart db uid pid qty in
  ((qty = None ∨ ∃ q, qty = Some q ∧ q < 1) → r = (InvalidQuantity, db))
  ∧ (∀ q, qty = Some q → 1 ≤ q →
       (list_find (λ p, productId p = pid) (cart user) = None →
        r = (status_json 404 "Product not in cart", db))
       ∧ (∀ i item,
            list_find (λ p, productId p = pid) (cart user) = Some (i, item) →
            let c := <[i := set_quantity item q]> (cart user) in
            r = (json (Message "Cart updated successfully"), save (set_cart user c) db)
            ∧ findById r.2 uid = Some (set_cart user c)
            ∧ c !! i = Some (set_quantity item q)
            ∧ (∀ j, j ≠ i → c !! j = cart user !! j)
            ∧ productId <$> c = productId <$> cart user
            ∧ put_cart r.2 uid pid qty =
                (json (Message "Cart updated successfully"), r.2))).
Proof.
  intros Hfind r. subst r. split.
  - intros [->|(q & -> & Hq)]; [done|]. unfold put_cart. by rewrite decide_True.
  - intros q -> Hq. split.
    + intros Hnone. unfold put_cart. rewrite decide_False by lia.
      by rewrite Hfind, Hnone.
    + intros i item Hitem c.
      rewrite (put_cart_ok _ _ _ _ _ _ _ Hq Hfind Hitem). cbn [fst snd]. fold c.
      pose proof Hitem as (Hi & Hpid & _)%list_find_Some.
      assert (Hfind' : findById (save (set_cart user c) db) uid = Some (set_cart user c))
        by (by apply (findById_saved _ _ user)).
      split_and!; try done.
      * subst c. apply list_lookup_insert_eq. by eapply lookup_lt_Some.
      * intros j Hj. subst c. by rewrite list_lookup_insert_ne.
      * subst c. by eapply productIds_set_quantity.
      * rewrite (put_cart_ok _ _ _ _ (set_cart user c) i (set_quantity item q) Hq Hfind').
        -- cbn [cart set_cart]. subst c. rewrite list_insert_insert_eq. cbn.
           by rewrite save_save.
        -- cbn [cart set_cart]. subst c.
           by apply (list_find_insert_same (λ p, productId p = pid) _ _ item).
Qed.

Lemma put_cart_overwrites_quantity_witness :
  findById [bob; carol] "u3" = Some carol
  ∧ put_cart [bob; carol] "u3" "A" (Some 7) =
      (json (Message "Cart updated successfully"), [bob; set_cart carol [apples 7]])
  ∧ put_cart [bob; carol] "u3" "A" (Some 0) = (InvalidQuantity, [bob; carol]).
Proof.
  split; [reflexivity|].
  destruct (put_cart_overwrites_quantity [bob; carol] "u3" "A" (Some 7) carol)
    as [_ Hset]; [reflexivity|].
  destruct (Hset 7) as [_ Hheld]; [done|lia|].
  destruct (Hheld 0%nat (apples 2)) as (Hr & _); [reflexivity|].
  split; [exact Hr|].
  destruct (put_cart_overwrites_quantity [bob; carol] "u3" "A" (Some 0) carol)
    as [Hguard _]; [reflexivity|].
  apply Hguard. right. exists 0. split; [done|lia].
Defined.

(** ** Adding to the cart: batches, quantities, snapshots *)

Section CartAdd.

Variable fakeProductDatabase : gmap string ProductInfo.

Lemma cart_loop_app (ps qs : list Line) (c : list Product) :
  cart_loop fakeProductDatabase (ps ++ qs) c =
  match cart_loop fakeProductDatabase ps c with
  | inl pid => inl pid
  | inr c1 => cart_loop fakeProductDatabase qs c1
  end.
Proof.
  revert c. induction ps as [|p ps IH]; intros c; [done|].
  cbn [app cart_loop].
  destruct (fakeProductDatabase !! line_productId p) as [info|]; [|done].
  by destruct (list_find _ c) as [[i existing]|].
Qed.





(** Entries that were in the cart keep their place and their snapshot. *)
Lemma cart_loop_keeps_entries (products : list Line) (c c' : list Product)
    (i : nat) (item : Product) :
  cart_loop fakeProductDatabase products c = inr c' →
  c !! i = Some item →
  ∃ q, c' !! i = Some (set_quantity item q).
Proof.
  revert c item. induction products as [|p products IH]; intros c item; cbn [cart_loop].
  - intros [= <-] Hi. exists (quantity item). by destruct item.
  - destruct (fakeProductDatabase !! line_productId p) as [info|]; [|done].
    destruct (list_find _ c) as [[j existing]|] eqn:Hfind; intros Hloop Hi.
    + destruct (decide (i = j)) as [->|Hne].
      * apply list_find_Some in Hfind as (Hj & _ & _).
        assert (existing = item) as -> by congruence.
        destruct (IH _ (set_quantity item (quantity item + line_quantity p)) Hloop)
          as [q Hq].
        { apply list_lookup_insert_eq. by eapply lookup_lt_Some. }
        by exists q.
      * apply (IH _ item Hloop). by rewrite list_lookup_insert_ne.
    + apply (IH _ item Hloop). by apply lookup_app_l_Some.
Qed.

Lemma post_cart_each_batch (products : list Line) (db : Db) (uid : ObjectId) :
  first_invalid fakeProductDatabase products = None →
  post_cart_each fakeProductDatabase db uid products =
  (post_cart fakeProductDatabase db uid products).2.
Proof.
  revert db. induction products as [|p products IH]; intros db Hvalid; [done|].
  rewrite first_invalid_cons in Hvalid.
  destruct (fakeProductDatabase !! line_productId p) as [info|] eqn:Hinfo; [|done].
  cbn [post_cart_each]. rewrite (IH _ Hvalid).
  destruct (findById db uid) as [user|] eqn:Hfind.
  - destruct (cart_loop_all_valid fakeProductDatabase [p] (cart user)) as [c1 Hc1].
    { by rewrite first_invalid_cons, Hinfo. }
    rewrite (post_cart_ok _ _ _ [p] _ _ ltac:(done) Hfind Hc1). cbn [snd].
    pose proof (findById_saved _ _ _ (set_cart user c1) Hfind eq_refl) as Hfind1.
    destruct (cart_loop_all_valid fakeProductDatabase products c1 Hvalid) as [c' Hc'].
    assert (Hall : cart_loop fakeProductDatabase (p :: products) (cart user) = inr c').
    { change (p :: products) with ([p] ++ products). by rewrite cart_loop_app, Hc1. }
    rewrite (post_cart_ok _ _ _ (p :: products) _ _ ltac:(done) Hfind Hall). cbn [snd].
    destruct products as [|p' products]; cbn [post_cart snd].
    + cbn in Hc'. by injection Hc' as <-.
    + cbn [post_cart] in *. rewrite Hfind1. cbn [cart set_cart].
      rewrite Hc'. cbn [snd]. by rewrite save_save.
  - assert (Hnone : ∀ ps, (post_cart fakeProductDatabase db uid ps).2 = db).
    { intros ps. unfold post_cart. destruct ps; [done|]. by rewrite Hfind. }
    by rewrite !Hnone.
Qed.

End CartAdd.

Lemma post_cart_succeeded (fakeProductDatabase : gmap string ProductInfo) (db : Db)
    (uid : ObjectId) (products : list Line) (user : User) :
  findById db uid = Some user →
  succeeded (post_cart fakeProductDatabase db uid products).1 →
  ∃ c', cart_loop fakeProductDatabase products (cart user) = inr c'
        ∧ post_cart fakeProductDatabase db uid products =
            (json (CartUpdated "Add to cart successfully" c'),
             save (set_cart user c') db)
        ∧ findById (save (set_cart user c') db) uid = Some (set_cart user c').
Proof.
  intros Hfind. unfold post_cart. destruct products as [|p products]; [done|].
  rewrite Hfind.
  destruct (cart_loop _ (p :: products) (cart user)) as [pid|c'] eqn:Hloop; [done|].
  intros _. exists c'. split_and!; [done..|]. by apply (findById_saved _ _ user).
Qed.

(** X3. When every line of a request resolves, POST /cart with the whole
    list leaves the collection exactly as the same lines sent one request
    at a time, in order, would. *)
Theorem cart_batch_equals_single_requests
    (fakeProductDatabase : gmap string ProductInfo) (db : Db) (uid : ObjectId)
    (products : list Line) :
  first_invalid fakeProductDatabase products = None →
  (post_cart fakeProductDatabase db uid products).2 =
  post_cart_each fakeProductDatabase db uid products.
Proof. intros Hvalid. symmetry. by apply post_cart_each_batch. Qed.

Lemma cart_batch_equals_single_requests_witness :
  first_invalid demo_catalog [mkLine "B" 1; mkLine "A" 3; mkLine "B" 2] = None
  ∧ (post_cart demo_catalog [bob; carol] "u3"
               [mkLine "B" 1; mkLine "A" 3; mkLine "B" 2]).2 =
    (post_cart demo_catalog
       (post_cart demo_catalog
          (post_cart demo_catalog [bob; carol] "u3" [mkLine "B" 1]).2
          "u3" [mkLine "A" 3]).2
       "u3" [mkLine "B" 2]).2.
Proof.
  split; [reflexivity|].
  apply (cart_batch_equals_single_requests demo_catalog [bob; carol] "u3"
           [mkLine "B" 1; mkLine "A" 3; mkLine "B" 2]).
  reflexivity.
Defined.



(** X5. A successful POST /cart never moves, removes or re-prices an
    entry: every entry the cart held keeps its index, its [productId] and
    the name, image and price it was stored with, whatever the catalog
    says now; only its quantity may change, and new entries come after
    the old ones. *)
Theorem cart_add_keeps_entries
    (fakeProductDatabase : gmap string ProductInfo) (db : Db) (uid : ObjectId)
    (products : list Line) (user : User) :
  findById db uid = Some user →
  succeeded (post_cart fakeProductDatabase db uid products).1 →
  ∃ user',
    findById (post_cart fakeProductDatabase db uid products).2 uid = Some user'
    ∧ (length (cart user) ≤ length (cart user'))%nat
    ∧ ∀ i item,
        cart user !! i = Some item →
        ∃ item',
          cart user' !! i = Some item'
          ∧ productId item' = productId item
          ∧ name item' = name item
          ∧ imageUrl item' = imageUrl item
          ∧ price item' = price item.
Proof.
  intros Hfind (c' & Hloop & -> & Hfind')%(post_cart_succeeded _ _ _ _ _ Hfind).
  cbn [snd]. eexists. split; [exact Hfind'|]. cbn [cart set_cart].
  assert (Hkeep : ∀ i item, cart user !! i = Some item →
                            ∃ q, c' !! i = Some (set_quantity item q)).
  { intros i item. by eapply cart_loop_keeps_entries. }
  split.
  - destruct (decide (length (cart user) ≤ length c')%nat) as [|Hlt]; [done|].
    destruct (lookup_lt_is_Some_2 (cart user) (length c')) as [item Hitem]; [lia|].
    destruct (Hkeep _ _ Hitem) as [q Hq]. apply lookup_lt_Some in Hq. lia.
  - intros i item Hitem. destruct (Hkeep _ _ Hitem) as [q Hq].
    eexists. by split.
Qed.

Lemma cart_add_keeps_entries_witness :
  findById [bob; carol] "u3" = Some carol
  ∧ ∃ user',
      findById (post_cart (<["A" := mkProductInfo "Apricot" "new.png" 999]> demo_catalog)
                          [bob; carol] "u3" [mkLine "B" 1; mkLine "A" 3]).2 "u3"
        = Some user'
      ∧ cart user' !! 0%nat = Some (apples 5).
Proof.
  split; [reflexivity|].
  destruct (cart_add_keeps_entries
              (<["A" := mkProductInfo "Apricot" "new.png" 999]> demo_catalog)
              [bob; carol] "u3" [mkLine "B" 1; mkLine "A" 3] carol)
    as (user' & Hfind' & _ & _); [reflexivity..|].
  exists user'. split; [exact Hfind'|].
  vm_compute in Hfind'. by injection Hfind' as <-.
Defined.

(** ** Orders: deletion, round trip, stored items *)

Lemma set_orders_id (user : User) : set_orders user (orders user) = user.
Proof. by destruct user. Qed.

Lemma delete_order_missing (db : Db) (uid orderId : ObjectId) (user : User) :
  findById db uid = Some user →
  (∀ o, o ∈ orders user → order_id o ≠ orderId) →
  delete_order db uid orderId = (status_json 404 "Order not found", db).
Proof.
  intros Hfind Hnone. unfold delete_order. rewrite Hfind. cbn [orders set_orders].
  rewrite filter_all by done. by rewrite decide_True.
Qed.

Lemma delete_order_ok (db : Db) (uid orderId : ObjectId) (user : User) (o : Order) :
  findById db uid = Some user →
  o ∈ orders user → order_id o = orderId →
  delete_order db uid orderId =
    (json (Message "Order deleted"),
     save (set_orders user (filter (λ o, order_id o ≠ orderId) (orders user))) db).
Proof.
  intros Hfind Ho Hid. unfold delete_order. rewrite Hfind. cbn [orders set_orders].
  rewrite decide_False; [done|].
  assert (length (filter (λ o, order_id o ≠ orderId) (orders user))
          < length (orders user))%nat; [|lia].
  apply (length_filter_lt _ _ o); [done|]. by intros Hnot.
Qed.

(** X6. DELETE /order/:orderId for an existing user: when no order of
    the user has the identifier the answer is 404 and nothing is written;
    otherwise the order is removed in one write and the other orders stay
    in their order.  Afterwards the identifier is unknown: deleting it
    again and fetching a review image of it are both answered 404. *)
Theorem delete_order_removes
    (db : Db) (uid orderId : ObjectId) (user : User) :
  findById db uid = Some user →
  let kept := filter (λ o, order_id o ≠ orderId) (orders user) in
  let r := delete_order db uid orderId in
  ((∀ o, o ∈ orders user → order_id o ≠ orderId) →
   r = (status_json 404 "Order not found", db))
  ∧ ((∃ o, o ∈ orders user ∧ order_id o = orderId) →
     r = (json (Message "Order deleted"), save (set_orders user kept) db)
     ∧ findById r.2 uid = Some (set_orders user kept)
     ∧ (∀ o, o ∈ kept ↔ o ∈ orders user ∧ order_id o ≠ orderId)
     ∧ kept `sublist_of` orders user
     ∧ delete_order r.2 uid orderId = (status_json 404 "Order not found", r.2)
     ∧ (∀ index, get_review_image r.2 uid orderId index =
                 status_json 404 "Review not found")).
Proof.
  intros Hfind kept r. subst r. split.
  - intros Hnone. by apply (delete_order_missing _ _ _ user).
  - intros (o & Ho & Hid).
    rewrite (delete_order_ok _ _ _ _ _ Hfind Ho Hid). cbn [fst snd]. fold kept.
    assert (Hfind' : findById (save (set_orders user kept) db) uid
                     = Some (set_orders user kept))
      by (by apply (findById_saved _ _ user)).
    assert (Hkept : ∀ x, x ∈ kept → order_id x ≠ orderId).
    { intros x Hx. subst kept. by apply list_elem_of_filter in Hx as [? _]. }
    split_and!; try done.
    + intros x. subst kept. rewrite list_elem_of_filter. tauto.
    + apply sublist_filter.
    + by apply (delete_order_missing _ _ _ (set_orders user kept)).
    + intros index. unfold get_review_image. rewrite Hfind'.
      cbn [orders set_orders].
      assert (list_find (λ o, order_id o = orderId) kept = None) as ->; [|done].
      apply list_find_None, Forall_forall. intros x Hx. by apply Hkept.
Qed.

Lemma delete_order_removes_witness :
  findById [erin] "u5" = Some erin
  ∧ delete_order [erin] "u5" "o1" =
      (json (Message "Order deleted"), [set_orders erin []])
  ∧ delete_order [set_orders erin []] "u5" "o1" =
      (status_json 404 "Order not found", [set_orders erin []]).
Proof.
  split; [reflexivity|].
  destruct (delete_order_removes [erin] "u5" "o1" erin) as [_ Hremoved];
    [reflexivity|].
  destruct Hremoved as (Hr & _ & _ & _ & Hagain & _).
  - exists order1. split; [by left|done].
  - split; [exact Hr|]. rewrite Hr in Hagain. exact Hagain.
Defined.

(** X7. Creating an order under an identifier that no order of the user
    carries and deleting it again gives the user's document back as it
    was: orders, cart and tokens. *)
Theorem order_create_delete_round_trip
    (fakeProductDatabase : gmap string ProductInfo) (db : Db) (uid : ObjectId)
    (products : list Line) (couponId shippingId : option string) (now : Date)
    (oid : ObjectId) (user : User) :
  findById db uid = Some user →
  (∀ o, o ∈ orders user → order_id o ≠ oid) →
  let created := post_order fakeProductDatabase db uid products couponId shippingId
                            now oid in
  succeeded created.1 →
  delete_order created.2 uid oid = (json (Message "Order deleted"), save user db)
  ∧ findById (save user db) uid = Some user.
Proof.
  intros Hfind Hfresh created Hok. subst created.
  pose proof Hok
    as (user0 & sd & items & Hsd & Hne & Hfind0 & Hitems & Htotal)%post_order_succeeded.
  assert (user0 = user) as -> by congruence.
  rewrite (post_order_ok _ _ _ _ _ _ _ _ _ _ _ Hsd Hne Hfind Hitems Htotal).
  cbn [snd].
  set (o := mkOrder oid items _ now _ _ _ empty_review).
  set (user1 := set_orders user (orders user ++ [o])).
  assert (Hfind1 : findById (save user1 db) uid = Some user1)
    by (by apply (findById_saved _ _ user)).
  split; [|by apply (findById_saved _ _ user)].
  rewrite (delete_order_ok _ _ _ user1 o Hfind1); [|by apply elem_of_app; right; left|done].
  f_equal. rewrite save_save by done. f_equal.
  subst user1. cbn [orders set_orders].
  rewrite filter_app, filter_all by done.
  rewrite filter_cons_False by (by cbn; intros H; apply H).
  rewrite filter_nil, app_nil_r. by destruct user.
Qed.

Lemma order_create_delete_round_trip_witness :
  findById [bob; carol] "u3" = Some carol
  ∧ delete_order
      (post_order demo_catalog [bob; carol] "u3" [mkLine "A" 5] (Some "123")
                  (Some "123") 1000 "o1").2 "u3" "o1" =
    (json (Message "Order deleted"), [bob; carol]).
Proof.
  split; [reflexivity|].
  apply (order_create_delete_round_trip demo_catalog [bob; carol] "u3" [mkLine "A" 5]
           (Some "123") (Some "123") 1000 "o1" carol); [reflexivity| |reflexivity].
  intros o Ho. by apply elem_of_nil in Ho.
Defined.

Lemma snapshot_mirrors (fakeProductDatabase : gmap string ProductInfo)
    (products : list Line) (items : list Product) :
  snapshot fakeProductDatabase products = Some items →
  Forall2 (λ p item, ∃ info, fakeProductDatabase !! line_productId p = Some info
                             ∧ item = fullProduct info p) products items.
Proof.
  intros H%mapM_Some_1. eapply Forall2_impl; [exact H|].
  intros p item. unfold resolve.
  destruct (fakeProductDatabase !! line_productId p) as [info|]; [|done].
  intros [= <-]. by exists info.
Qed.

(** X8. A successful POST /order pushes one order at the end of the
    user's orders and touches nothing else of the document: the cart in
    particular stays as it was.  The pushed order has one item per request
    line, in the order of the lines and without merging lines that repeat a
    product; each item carries the identifier and quantity of its line and
    the name, image and price of the catalog record; the review of the
    order starts without comment, rating or image. *)
Theorem order_create_stores_lines
    (fakeProductDatabase : gmap string ProductInfo) (db : Db) (uid : ObjectId)
    (products : list Line) (couponId shippingId : option string) (now : Date)
    (oid : ObjectId) (user : User) :
  findById db uid = Some user →
  let r := post_order fakeProductDatabase db uid products couponId shippingId
                      now oid in
  succeeded r.1 →
  r.1 = json (OrderCreated "Order created" oid)
  ∧ ∃ user' o,
      findById r.2 uid = Some user'
      ∧ orders user' = orders user ++ [o]
      ∧ cart user' = cart user
      ∧ refreshTokens user' = refreshTokens user
      ∧ order_id o = oid
      ∧ order_createdAt o = now
      ∧ order_review o = empty_review
      ∧ Forall2 (λ p item,
                   productId item = line_productId p
                   ∧ quantity item = line_quantity p
                   ∧ ∃ info, fakeProductDatabase !! line_productId p = Some info
                             ∧ name item = info_name info
                             ∧ imageUrl item = info_imageUrl info
                             ∧ price item = info_price info)
                products (order_products o).
Proof.
  intros Hfind r Hok. subst r.
  pose proof Hok
    as (user0 & sd & items & Hsd & Hne & Hfind0 & Hitems & Htotal)%post_order_succeeded.
  assert (user0 = user) as -> by congruence.
  rewrite (post_order_ok _ _ _ _ _ _ _ _ _ _ _ Hsd Hne Hfind Hitems Htotal).
  cbn [fst snd].
  split; [done|]. eexists _, _. split; [by apply (findById_saved _ _ user)|].
  cbn. split_and!; try done.
  eapply Forall2_impl; [by apply snapshot_mirrors|].
  intros p item (info & Hinfo & ->). cbn. split_and!; try done. by exists info.
Qed.

Lemma order_create_stores_lines_witness :
  findById [bob; carol] "u3" = Some carol
  ∧ (post_order demo_catalog [bob; carol] "u3" [mkLine "A" 1; mkLine "B" 2; mkLine "A" 4]
                None (Some "789") 1000 "o1").1 = json (OrderCreated "Order created" "o1").
Proof.
  split; [reflexivity|].
  by destruct (order_create_stores_lines demo_catalog [bob; carol] "u3"
                 [mkLine "A" 1; mkLine "B" 2; mkLine "A" 4] None (Some "789") 1000 "o1"
                 carol) as [Hr _]; [reflexivity..|].
Defined.

(** ** Reviews: images and detaching *)

(** X9. After a successful attach, the images are served back by index
    exactly as uploaded: index [k] below the number of uploaded files
    answers the [k]-th buffer as [image/jpeg], and every index from that
    number on answers 404. *)
Theorem review_images_round_trip
    (db : Db) (uid orderId : ObjectId) (body_comment : option string)
    (body_rating : RatingValue) (files : list Buffer) :
  let r := post_review db uid orderId body_comment body_rating files in
  succeeded r.1 →
  (∀ k image, files !! k = Some image →
              get_review_image r.2 uid orderId k = json (Image "image/jpeg" image))
  ∧ (∀ k, (length files ≤ k)%nat →
          get_review_image r.2 uid orderId k = status_json 404 "Image not found").
Proof.
  intros r Hok. subst r.
  pose proof Hok
    as (user & i & order & z & Hrating & Hfind & Horder & Hnone & Hparse & Hrange)%post_review_succeeded.
  rewrite (post_review_ok _ _ _ _ _ _ _ _ _ _ Hrating Hfind Horder Hnone Hparse Hrange).
  cbn [snd].
  destruct (findById_review_saved db uid orderId user i order
              (mkReview (Some (default "" (truthy body_comment))) (Some z) files)
              Hfind Horder)
    as [Hfind' Horder'].
  split.
  - intros k image Hk. unfold get_review_image. rewrite Hfind'.
    cbn [orders set_orders]. rewrite Horder'. cbn. by rewrite Hk.
  - intros k Hk. unfold get_review_image. rewrite Hfind'.
    cbn [orders set_orders]. rewrite Horder'. cbn.
    by rewrite (lookup_ge_None_2 files k).
Qed.

Lemma review_images_round_trip_witness :
  get_review_image
    (post_review [erin] "u5" "o1" None (Numeric 4) [[Byte.x01]; [Byte.x02; Byte.x03]]).2
    "u5" "o1" 1 = json (Image "image/jpeg" [Byte.x02; Byte.x03])
  ∧ get_review_image
      (post_review [erin] "u5" "o1" None (Numeric 4) [[Byte.x01]; [Byte.x02; Byte.x03]]).2
      "u5" "o1" 2 = status_json 404 "Image not found".
Proof.
  destruct (review_images_round_trip [erin] "u5" "o1" None (Numeric 4)
              [[Byte.x01]; [Byte.x02; Byte.x03]]) as [Hserved Hbeyond]; [reflexivity|].
  split; [by apply Hserved|]. apply Hbeyond. cbn. lia.
Defined.

(** X21. POST /order/:orderId/review reads the rating twice: the guard
    coerces it with [Number], [parseInt] reads its text.  On an order
    without review, a rating that passes the guard and from which
    [parseInt] reads no number from 1 to 5 is refused by the schema when
    the document is saved: the request is answered 500 [Server error] and
    nothing is written. *)
Theorem review_rating_read_twice
    (db : Db) (uid orderId : ObjectId) (body_comment : option string)
    (body_rating : RatingValue) (files : list Buffer) (user : User) (i : nat)
    (order : Order) :
  findById db uid = Some user →
  list_find (λ o, order_id o = orderId) (orders user) = Some (i, order) →
  review_exists order = false →
  rating_rejected body_rating = false →
  (∀ z, parseInt body_rating = Some z → ¬ 1 ≤ z ≤ 5) →
  let r := post_review db uid orderId body_comment body_rating files in
  r = (caught, db) ∧ status r.1 = 500.
Proof.
  intros Hfind Horder Hnone Hrating Hparse r. subst r.
  rewrite (post_review_caught _ _ _ _ _ _ _ _ _ Hrating Hfind Horder Hnone); [done|].
  destruct (parseInt body_rating) as [z|]; [|done]. cbn.
  apply bool_decide_eq_false_2. by apply Hparse.
Qed.

(** So it is for the texts [0.5e1] and [0b11] and for the JSON value
    [true]. *)
Lemma review_rating_read_twice_witness :
  post_review [erin] "u5" "o1" None
    (DecimalText false (Decimal.D0 Decimal.Nil) (Decimal.D5 Decimal.Nil) (Some 1)) [] =
    (caught, [erin])
  ∧ post_review [erin] "u5" "o1" None (RadixText Binary 3) [] = (caught, [erin])
  ∧ post_review [erin] "u5" "o1" None (Boolean true) [] = (caught, [erin]).
Proof.
  split_and!.
  - apply (review_rating_read_twice [erin] "u5" "o1" None _ [] erin 0%nat order1);
      [reflexivity..|].
    intros z [= <-]. lia.
  - apply (review_rating_read_twice [erin] "u5" "o1" None _ [] erin 0%nat order1);
      [reflexivity..|].
    intros z [= <-]. lia.
  - apply (review_rating_read_twice [erin] "u5" "o1" None _ [] erin 0%nat order1);
      [reflexivity..|].
    intros z [=].
Defined.

(** X10. DELETE /order/:orderId/review for an existing user.  An unknown
    order is answered 404 and nothing is written.  On every order of the
    user, whether it was reviewed or not, the answer is
    [Review deleted]: the review is left without comment, rating and
    image, and every other field of the order, and every other order,
    stays.  Afterwards every image index of that order is answered
    [Image not found], and detaching again is answered [Review deleted]
    once more and changes nothing. *)
Theorem review_detach_clears
    (db : Db) (uid orderId : ObjectId) (user : User) :
  findById db uid = Some user →
  let r := delete_review db uid orderId in
  (list_find (λ o, order_id o = orderId) (orders user) = None →
   r = (status_json 404 "Review not found", db))
  ∧ (∀ i order,
       list_find (λ o, order_id o = orderId) (orders user) = Some (i, order) →
       let user' :=
         set_orders user (<[i := set_review order empty_review]> (orders user)) in
       r = (json (Message "Review deleted"), save user' db)
       ∧ findById r.2 uid = Some user'
       ∧ (∀ j, j ≠ i → orders user' !! j = orders user !! j)
       ∧ cart user' = cart user
       ∧ (∀ index, get_review_image r.2 uid orderId index =
                   status_json 404 "Image not found")
       ∧ delete_review r.2 uid orderId = (json (Message "Review deleted"), r.2)).
Proof.
  intros Hfind r. subst r. split.
  - intros Hnone. unfold delete_review. by rewrite Hfind, Hnone.
  - intros i order Horder user'.
    rewrite (delete_review_ok _ _ _ _ _ _ Hfind Horder). cbn [fst snd].
    destruct (findById_review_saved db uid orderId user i order empty_review
                Hfind Horder) as [Hfind' Horder'].
    subst user'.
    split_and!; try done.
    + intros j Hj. cbn [orders set_orders]. by rewrite list_lookup_insert_ne.
    + intros index. unfold get_review_image. rewrite Hfind'.
      cbn [orders set_orders]. by rewrite Horder'.
    + rewrite (delete_review_ok _ _ _ _ _ _ Hfind' Horder'). f_equal.
      cbn [orders set_orders]. rewrite list_insert_insert_eq.
      by rewrite save_save.
Qed.

Lemma review_detach_clears_witness :
  let reviewed := set_orders erin [set_review order1 five_stars] in
  findById [reviewed] "u5" = Some reviewed
  ∧ delete_review [reviewed] "u5" "o1" = (json (Message "Review deleted"), [erin])
  ∧ delete_review [erin] "u5" "o1" = (json (Message "Review deleted"), [erin]).
Proof.
  intros reviewed. split; [reflexivity|].
  destruct (review_detach_clears [reviewed] "u5" "o1" reviewed) as [_ Hfound];
    [reflexivity|].
  destruct (Hfound 0%nat (set_review order1 five_stars)) as (Hr & _ & _ & _ & _ & Hagain);
    [reflexivity|].
  split; [exact Hr|]. rewrite Hr in Hagain. exact Hagain.
Defined.

(** ** The profile and its image addresses *)

Lemma list_find_unique_id (l : list Order) (k : nat) (o : Order) :
  NoDup (order_id <$> l) →
  l !! k = Some o →
  list_find (λ x, order_id x = order_id o) l = Some (k, o).
Proof.
  intros Hnodup Hk. apply list_find_Some. split_and!; [done..|].
  intros j y Hj Hlt Hid.
  assert (j = k); [|lia].
  apply (NoDup_lookup _ j k (order_id o) Hnodup).
  - by rewrite list_lookup_fmap, Hj, <- Hid.
  - by rewrite list_lookup_fmap, Hk.
Qed.

(** X11. GET /me for an existing user whose orders carry distinct
    identifiers answers the user's id, email and cart and one view per
    order, in order.  Every order is shown with a review object, never
    with [null]: it carries the stored comment and rating, which are
    absent on an order that was never reviewed, and one address per
    stored image, none on such an order; address [n] is
    [<protocol>://<host>/order/<id>/review/image/<n>], and fetching image
    [n] of that order answers the [n]-th stored buffer: every listed
    address resolves. *)
Theorem me_image_urls_resolve
    (db : Db) (uid : ObjectId) (protocol host : string) (user : User) :
  findById db uid = Some user →
  NoDup (order_id <$> orders user) →
  ∃ me,
    get_me db uid protocol host = inr me
    ∧ me_id me = user_id user
    ∧ me_email me = email user
    ∧ me_cart me = cart user
    ∧ length (me_orders me) = length (orders user)
    ∧ ∀ k o,
        orders user !! k = Some o →
        ∃ ov,
          me_orders me !! k = Some ov
          ∧ view_id ov = order_id o
          ∧ view_products ov = order_products o
          ∧ view_totalAmount ov = order_totalAmount o
          ∧ view_comment (view_review ov) = comment (order_review o)
          ∧ view_rating (view_review ov) = rating (order_review o)
          ∧ length (imageUrls (view_review ov)) = length (imageFiles (order_review o))
          ∧ (order_review o = empty_review →
             view_review ov = mkReviewView None None [])
          ∧ ∀ n url,
              imageUrls (view_review ov) !! n = Some url →
              url = image_url protocol host (order_id o) n
              ∧ ∃ image,
                  imageFiles (order_review o) !! n = Some image
                  ∧ get_review_image db uid (order_id o) n =
                      json (Image "image/jpeg" image).
Proof.
  intros Hfind Hnodup. unfold get_me. rewrite Hfind. eexists. split; [done|].
  cbn. split_and!; try done.
  - by rewrite length_fmap.
  - intros k o Hk. exists (order_view protocol host o).
    split; [by rewrite list_lookup_fmap, Hk|].
    cbn. split_and!; try done.
    + by rewrite length_imap.
    + by intros ->.
    + intros n url Hn. rewrite list_lookup_imap in Hn.
      destruct (imageFiles (order_review o) !! n) as [image|] eqn:Himage; [|done].
      injection Hn as <-. split; [done|]. exists image. split; [done|].
      unfold get_review_image. rewrite Hfind.
      rewrite (list_find_unique_id _ _ _ Hnodup Hk). by rewrite Himage.
Qed.

Lemma me_image_urls_resolve_witness :
  let photo := [Byte.x01; Byte.x02] in
  let reviewed :=
    set_orders erin [set_review order1 (mkReview (Some "ok") (Some 4) [photo])] in
  findById [reviewed] "u5" = Some reviewed
  ∧ ∃ me,
      get_me [reviewed] "u5" "https" "shop.example" = inr me
      ∧ view_review <$> me_orders me !! 0%nat =
          Some (mkReviewView (Some "ok") (Some 4)
                  ["https://shop.example/order/o1/review/image/0"]).
Proof.
  intros photo reviewed. split; [reflexivity|].
  destruct (me_image_urls_resolve [reviewed] "u5" "https" "shop.example" reviewed)
    as (me & Hme & _); [reflexivity|apply NoDup_singleton|].
  exists me. split; [exact Hme|].
  vm_compute in Hme. by injection Hme as <-.
Defined.

(** ** The bearer token *)

Lemma split_space_spaceless (s : string) : spaceless s = true → split_space s = [s].
Proof.
  induction s as [|c s IH]; cbn; [done|].
  case_decide; [done|]. intros Hs. by rewrite (IH Hs).
Qed.

Lemma split_space_word (word rest : string) :
  spaceless word = true →
  split_space (word +:+ " " +:+ rest) = word :: split_space rest.
Proof.
  induction word as [|c word IH]; [done|].
  change (String c word +:+ " " +:+ rest) with (String c (word +:+ " " +:+ rest)).
  cbn [split_space spaceless]. case_decide; [done|].
  intros Hword. by rewrite (IH Hword).
Qed.

(** X12. [authenticateToken] takes the second space-separated piece of
    the [Authorization] header as the token, whatever the first piece is.
    A header made of a word, one space and a non-empty token without
    space is answered by the verification of that token: [next()] as the
    decoded user, or 403.  No header, an empty header, a header without
    space, and a header whose first space is followed by a space or by
    nothing are answered 401 without verifying anything. *)
Theorem authenticate_reads_second_piece
    (lib : Crypto) (scheme token : string) (now : Date) :
  spaceless scheme = true →
  spaceless token = true →
  token ≠ "" →
  authenticateToken lib (Some (scheme +:+ " " +:+ token)) now =
    match jwt_verify lib token (ACCESS_TOKEN_SECRET lib) now with
    | Some id => inr id
    | None => inl (sendStatus 403)
    end
  ∧ (∀ rest, authenticateToken lib (Some (scheme +:+ " " +:+ token +:+ " " +:+ rest)) now
             = authenticateToken lib (Some (scheme +:+ " " +:+ token)) now)
  ∧ authenticateToken lib None now = inl (sendStatus 401)
  ∧ authenticateToken lib (Some scheme) now = inl (sendStatus 401)
  ∧ authenticateToken lib (Some (scheme +:+ " ")) now = inl (sendStatus 401)
  ∧ (∀ rest, authenticateToken lib (Some (scheme +:+ " " +:+ " " +:+ rest)) now
             = inl (sendStatus 401)).
Proof.
  intros Hscheme Htoken Hne.
  split_and!.
  - unfold authenticateToken. cbn [mbind option_bind].
    rewrite split_space_word by done. rewrite split_space_spaceless by done.
    change ([scheme; token] !! 1%nat) with (Some token). by rewrite truthy_Some.
  - intros rest. unfold authenticateToken. cbn [mbind option_bind].
    rewrite (split_space_word scheme (token +:+ " " +:+ rest)) by done.
    rewrite (split_space_word token rest), (split_space_word scheme token) by done.
    rewrite (split_space_spaceless token) by done. reflexivity.
  - done.
  - unfold authenticateToken. cbn [mbind option_bind].
    by rewrite split_space_spaceless.
  - unfold authenticateToken. cbn [mbind option_bind].
    change (scheme +:+ " ") with (scheme +:+ " " +:+ "").
    by rewrite (split_space_word scheme "").
  - intros rest. unfold authenticateToken. cbn [mbind option_bind].
    by rewrite (split_space_word scheme (" " +:+ rest)).
Qed.

Lemma authenticate_reads_second_piece_witness :
  authenticateToken demo_lib (Some "Bearer access.u1.9") 10 = inr "u1"
  ∧ authenticateToken demo_lib (Some "access.u1.9") 10 = inl (sendStatus 401)
  ∧ authenticateToken demo_lib (Some "Bearer refresh.u1.9") 10 = inl (sendStatus 403).
Proof.
  destruct (authenticate_reads_second_piece demo_lib "Bearer" "access.u1.9" 10)
    as (Hbearer & _); [reflexivity|reflexivity|done|].
  split; [exact Hbearer|]. split; reflexivity.
Defined.

(** ** Registration and login *)

Lemma findOne_email_app_new (db : Db) (e : string) (u : User) :
  findOne_email db e = None → email u = e →
  findOne_email (db ++ [u]) e = Some u.
Proof.
  intros Hnone He. unfold findOne_email in *.
  apply fmap_None in Hnone. rewrite list_find_app_r by done. cbn.
  by rewrite decide_True.
Qed.

(** X13. Registering an email that no document carries appends one
    document with the hash of the password, an empty cart, no orders and
    no tokens, and leaves the documents already there in place.  When
    [bcrypt.compare] accepts the password against its own hash, a login
    with the registered email and password then succeeds as the new
    user; a login with a password that [bcrypt.compare] rejects is
    answered 403 and writes nothing; and registering the same email again
    is answered 400 and writes nothing. *)
Theorem register_then_login
    (lib : Crypto) (db : Db) (e pw : string) (oid : ObjectId) (now : Date) :
  e ≠ "" → pw ≠ "" →
  findOne_email db e = None →
  bcrypt_compare lib pw (bcrypt_hash lib pw) = true →
  let new := mkUser oid e (bcrypt_hash lib pw) [] [] [] in
  let registered := post_register lib db (Some e) (Some pw) oid in
  registered = (json (Message "User registered"), db ++ [new])
  ∧ (∀ i v, db !! i = Some v → registered.2 !! i = Some v)
  ∧ post_login lib registered.2 e pw now =
      (json (Tokens (generateAccessToken lib oid now) (generateRefreshToken lib oid now)),
       save (set_refreshTokens new [generateRefreshToken lib oid now]) registered.2)
  ∧ (∀ pw', bcrypt_compare lib pw' (bcrypt_hash lib pw) = false →
            post_login lib registered.2 e pw' now =
              (status_json 403 "Invalid credentials", registered.2))
  ∧ (∀ pw' oid', pw' ≠ "" →
                 post_register lib registered.2 (Some e) (Some pw') oid' =
                   (status_json 400 "Email already registered", registered.2)).
Proof.
  intros He Hpw Hnone Hcompare new registered.
  assert (Hreg : registered = (json (Message "User registered"), db ++ [new])).
  { subst registered. unfold post_register. by rewrite !truthy_Some, Hnone. }
  rewrite Hreg. cbn [snd].
  assert (Hfind : findOne_email (db ++ [new]) e = Some new)
    by (by apply findOne_email_app_new).
  split_and!; try done.
  - intros i v Hi. by apply lookup_app_l_Some.
  - by rewrite (post_login_ok lib _ _ _ now _ Hfind Hcompare).
  - intros pw' Hreject. unfold post_login. rewrite Hfind. cbn [password new].
    by rewrite Hreject.
  - intros pw' oid' Hpw'. unfold post_register. by rewrite !truthy_Some, Hfind.
Qed.

Lemma register_then_login_witness :
  post_login demo_lib
    (post_register demo_lib [bob] (Some "dave@example.com") (Some "pw") "u4").2
    "dave@example.com" "pw" 7 =
  (json (Tokens "access.u4.7" "refresh.u4.7"),
   [bob; mkUser "u4" "dave@example.com" "hash:pw" [] [] ["refresh.u4.7"]]).
Proof.
  destruct (register_then_login demo_lib [bob] "dave@example.com" "pw" "u4" 7)
    as (_ & _ & Hlogin & _); [done|done|reflexivity|reflexivity|].
  exact Hlogin.
Defined.

(** X14. Registration keeps emails unique: whatever the request, a
    collection in which no two documents share an email is still one
    afterwards; and it keeps [_id]s unique when the new [_id] is not in
    use.  A request without email or without password is answered 400 and
    writes nothing. *)
Theorem register_keeps_emails_unique
    (lib : Crypto) (db : Db) (e pw : option string) (oid : ObjectId) :
  let r := post_register lib db e pw oid in
  (unique_emails db → unique_emails r.2)
  ∧ (unique_ids db → oid ∉ user_id <$> db → unique_ids r.2)
  ∧ (truthy e = None ∨ truthy pw = None →
     r = (status_json 400 "Email and password required", db))
  ∧ (succeeded r.1 → length r.2 = S (length db))
  ∧ (¬ succeeded r.1 → r.2 = db).
Proof.
  intros r. subst r. unfold post_register.
  destruct (truthy e) as [e'|] eqn:He, (truthy pw) as [pw'|] eqn:Hpw;
    try (split_and!; [done|done|done|done|done]).
  - destruct (findOne_email db e') as [existing|] eqn:Hfind.
    + split_and!; try done. by intros [|].
    + cbn [fst snd]. split_and!.
      * unfold unique_emails. rewrite fmap_app. intros Hu.
        apply NoDup_app. split_and!; [done| |apply NoDup_singleton].
        intros x (v & -> & Hv)%list_elem_of_fmap Hx%list_elem_of_singleton.
        cbn in Hx. unfold findOne_email in Hfind.
        apply fmap_None, list_find_None in Hfind. rewrite Forall_forall in Hfind.
        by apply (Hfind v Hv).
      * unfold unique_ids. rewrite fmap_app. intros Hu Hfresh.
        apply NoDup_app. split_and!; [done| |apply NoDup_singleton].
        intros x Hx Hx'%list_elem_of_singleton. cbn in Hx'. by subst.
      * by intros [|].
      * intros _. rewrite length_app. cbn. lia.
      * by intros [].
Qed.

Lemma register_keeps_emails_unique_witness :
  unique_emails [bob; alice]
  ∧ unique_emails (post_register demo_lib [bob; alice] (Some "alice@example.com")
                                 (Some "pw") "u9").2
  ∧ unique_emails (post_register demo_lib [bob; alice] (Some "dave@example.com")
                                 (Some "pw") "u9").2.
Proof.
  assert (Hu : unique_emails [bob; alice]).
  { unfold unique_emails. cbn. apply NoDup_cons.
    split; [by intros ?%list_elem_of_singleton|]. apply NoDup_singleton. }
  split; [exact Hu|]. split.
  - by apply (register_keeps_emails_unique demo_lib [bob; alice]
                (Some "alice@example.com") (Some "pw") "u9").
  - by apply (register_keeps_emails_unique demo_lib [bob; alice]
                (Some "dave@example.com") (Some "pw") "u9").
Defined.

(** ** What a request leaves alone *)

Lemma touches_only_refl (keep : User → User → Prop) (uid : ObjectId) (db : Db) :
  (∀ v, keep v v) → touches_only keep uid db db.
Proof.
  intros Hrefl. unfold touches_only. apply Forall_Forall2_diag, Forall_forall.
  by intros v _.
Qed.

Lemma unique_ids_eq (db : Db) (u v : User) :
  unique_ids db → u ∈ db → v ∈ db → user_id u = user_id v → u = v.
Proof.
  unfold unique_ids. intros Hnodup (i & Hi)%list_elem_of_lookup
    (j & Hj)%list_elem_of_lookup Hid.
  assert (i = j) as ->; [|congruence].
  apply (NoDup_lookup _ i j (user_id u) Hnodup).
  - by rewrite list_lookup_fmap, Hi.
  - by rewrite list_lookup_fmap, Hj, Hid.
Qed.

Lemma touches_only_save (keep : User → User → Prop) (db : Db) (uid : ObjectId)
    (user user' : User) :
  unique_ids db →
  (∀ v, keep v v) →
  findById db uid = Some user →
  user_id user' = user_id user →
  keep user user' →
  touches_only keep uid db (save user' db).
Proof.
  intros Hnodup Hrefl Hfind Hid Hkeep.
  destruct (find_Some_holds _ _ _ Hfind) as [Hin Huid].
  unfold touches_only, save. apply Forall2_fmap_r, Forall_Forall2_diag, Forall_forall.
  intros v Hv. cbn. destruct (decide (user_id v = user_id user')) as [Hsame|Hother].
  - assert (v = user) as -> by (apply (unique_ids_eq db); [done..|congruence]).
    split; [done|]. intros Hne. congruence.
  - by split.
Qed.

Ltac frame_cases Hu Hrefl :=
  repeat case_match; subst;
  first
    [ by apply touches_only_refl, Hrefl
    | eapply touches_only_save;
      [exact Hu|apply Hrefl|eassumption|reflexivity|by repeat split] ].

Lemma same_but_cart_refl (v : User) : same_but_cart v v.
Proof. by repeat split. Qed.
Lemma same_but_orders_refl (v : User) : same_but_orders v v.
Proof. by repeat split. Qed.
Lemma same_but_refreshTokens_refl (v : User) : same_but_refreshTokens v v.
Proof. by repeat split. Qed.

(** X15. The three cart requests never write anything but the caller's
    cart: in a collection with distinct [_id]s, every document keeps its
    place, [_id], email, password hash, orders and refresh tokens, and a
    document under another [_id] is not changed at all, whether the
    request succeeds or fails. *)
Theorem cart_requests_touch_only_the_cart
    (fakeProductDatabase : gmap string ProductInfo) (db : Db) (uid : ObjectId) :
  unique_ids db →
  (∀ products,
     touches_only same_but_cart uid db
       (post_cart fakeProductDatabase db uid products).2)
  ∧ (∀ productIds,
       touches_only same_but_cart uid db (delete_cart db uid productIds).2)
  ∧ (∀ pid qty,
       touches_only same_but_cart uid db (put_cart db uid pid qty).2).
Proof.
  intros Hu. split_and!.
  - intros products. unfold post_cart.
    frame_cases Hu same_but_cart_refl.
  - intros productIds. unfold delete_cart.
    frame_cases Hu same_but_cart_refl.
  - intros pid qty. unfold put_cart.
    frame_cases Hu same_but_cart_refl.
Qed.

(** X16. The order and review requests never write anything but the
    caller's orders: in a collection with distinct [_id]s, every document
    keeps its place, [_id], email, password hash, cart and refresh tokens,
    and a document under another [_id] is not changed at all. *)
Theorem order_requests_touch_only_the_orders
    (fakeProductDatabase : gmap string ProductInfo) (db : Db) (uid : ObjectId) :
  unique_ids db →
  (∀ products couponId shippingId now oid,
     touches_only same_but_orders uid db
       (post_order fakeProductDatabase db uid products couponId shippingId now oid).2)
  ∧ (∀ orderId products method fee coupon now,
       touches_only same_but_orders uid db
         (put_order fakeProductDatabase db uid orderId products method fee coupon now).2)
  ∧ (∀ orderId,
       touches_only same_but_orders uid db (delete_order db uid orderId).2)
  ∧ (∀ orderId body_comment body_rating files,
       touches_only same_but_orders uid db
         (post_review db uid orderId body_comment body_rating files).2)
  ∧ (∀ orderId,
       touches_only same_but_orders uid db (delete_review db uid orderId).2).
Proof.
  intros Hu. split_and!.
  - intros products couponId shippingId now oid. unfold post_order.
    frame_cases Hu same_but_orders_refl.
  - intros orderId products method fee coupon now. unfold put_order.
    frame_cases Hu same_but_orders_refl.
  - intros orderId. unfold delete_order.
    frame_cases Hu same_but_orders_refl.
  - intros orderId body_comment body_rating files. unfold post_review.
    frame_cases Hu same_but_orders_refl.
  - intros orderId. unfold delete_review.
    frame_cases Hu same_but_orders_refl.
Qed.

Lemma touches_only_save_found (keep : User → User → Prop) (P : User → Prop)
    `{!∀ x, Decision (P x)} (db : Db) (user user' : User) :
  unique_ids db →
  (∀ v, keep v v) →
  snd <$> list_find P db = Some user →
  user_id user' = user_id user →
  keep user user' →
  touches_only keep (user_id user) db (save user' db).
Proof.
  intros Hnodup Hrefl Hfind Hid Hkeep.
  destruct (find_Some_holds _ _ _ Hfind) as [Hin _].
  unfold touches_only, save. apply Forall2_fmap_r, Forall_Forall2_diag, Forall_forall.
  intros v Hv. cbn. destruct (decide (user_id v = user_id user')) as [Hsame|Hother].
  - assert (v = user) as -> by (apply (unique_ids_eq db); [done..|congruence]).
    split; [done|]. intros Hne. congruence.
  - by split.
Qed.

(** X17. Login, refresh and logout never write anything but the refresh
    tokens of one user: in a collection with distinct [_id]s, every
    document keeps its place, [_id], email, password hash, cart and
    orders, and at most the documents under one [_id] change.  A refresh
    that fails, be it for a missing header, an unknown token or a failed
    verification, writes nothing: a held token that does not verify stays
    held. *)
Theorem token_requests_touch_only_the_tokens (lib : Crypto) (db : Db) :
  unique_ids db →
  (∀ e pw now,
     ∃ uid, touches_only same_but_refreshTokens uid db (post_login lib db e pw now).2)
  ∧ (∀ header now,
       ∃ uid, touches_only same_but_refreshTokens uid db
                (post_refresh lib db header now).2)
  ∧ (∀ body_token,
       ∃ uid, touches_only same_but_refreshTokens uid db (post_logout db body_token).2)
  ∧ (∀ header now,
       ¬ succeeded (post_refresh lib db header now).1 →
       (post_refresh lib db header now).2 = db).
Proof.
  intros Hu. split_and!.
  - intros e pw now. unfold post_login. repeat case_match; subst;
      try (exists ""; by apply touches_only_refl, same_but_refreshTokens_refl).
    eexists. eapply (touches_only_save_found _ (λ u, email u = e));
      [done|apply same_but_refreshTokens_refl|eassumption|done|by repeat split].
  - intros header now. unfold post_refresh. repeat case_match; subst;
      try (exists ""; by apply touches_only_refl, same_but_refreshTokens_refl).
    eexists.
    match goal with H : findOne_refreshTokens _ ?t = Some _ |- _ =>
      eapply (touches_only_save_found _ (λ u, t ∈ refreshTokens u));
        [done|apply same_but_refreshTokens_refl|exact H|done|by repeat split]
    end.
  - intros body_token. unfold post_logout. repeat case_match; subst;
      try (exists ""; by apply touches_only_refl, same_but_refreshTokens_refl).
    eexists.
    match goal with H : findOne_refreshTokens _ ?t = Some _ |- _ =>
      eapply (touches_only_save_found _ (λ u, t ∈ refreshTokens u));
        [done|apply same_but_refreshTokens_refl|exact H|done|by repeat split]
    end.
  - intros header now. unfold post_refresh. by repeat case_match.
Qed.

Lemma token_requests_touch_only_the_tokens_witness :
  unique_ids [bob; alice]
  ∧ ∃ uid, touches_only same_but_refreshTokens uid [bob; alice]
             (post_refresh demo_lib [bob; alice] (Some "refresh.u1.7") 9).2.
Proof.
  assert (Hu : unique_ids [bob; alice]).
  { unfold unique_ids. cbn. apply NoDup_cons.
    split; [by intros ?%list_elem_of_singleton|]. apply NoDup_singleton. }
  split; [exact Hu|].
  destruct (token_requests_touch_only_the_tokens demo_lib [bob; alice] Hu)
    as (_ & Hrefresh & _).
  apply Hrefresh.
Defined.

Lemma cart_requests_touch_only_the_cart_witness :
  unique_ids [bob; carol]
  ∧ touches_only same_but_cart "u3" [bob; carol]
      (post_cart demo_catalog [bob; carol] "u3" [mkLine "B" 2]).2.
Proof.
  assert (Hu : unique_ids [bob; carol]).
  { unfold unique_ids. cbn. apply NoDup_cons.
    split; [by intros ?%list_elem_of_singleton|]. apply NoDup_singleton. }
  split; [exact Hu|].
  destruct (cart_requests_touch_only_the_cart demo_catalog [bob; carol] "u3" Hu)
    as (Hadd & _).
  apply Hadd.
Defined.

Lemma order_requests_touch_only_the_orders_witness :
  unique_ids [bob; carol]
  ∧ touches_only same_but_orders "u3" [bob; carol]
      (post_order demo_catalog [bob; carol] "u3" [mkLine "A" 5] None (Some "123")
                  1000 "o1").2.
Proof.
  assert (Hu : unique_ids [bob; carol]).
  { unfold unique_ids. cbn. apply NoDup_cons.
    split; [by intros ?%list_elem_of_singleton|]. apply NoDup_singleton. }
  split; [exact Hu|].
  destruct (order_requests_touch_only_the_orders demo_catalog [bob; carol] "u3" Hu)
    as (Hcreate & _).
  apply Hcreate.
Defined.

(** X18. Logging in and logging out with the token just issued gives the
    user's document back as it was, provided the issued token is not empty
    and was held by nobody before the login. *)
Theorem login_logout_round_trip
    (lib : Crypto) (db : Db) (e pw : string) (now : Date) (user : User) :
  findOne_email db e = Some user →
  bcrypt_compare lib pw (password user) = true →
  let refreshToken := generateRefreshToken lib (user_id user) now in
  refreshToken ≠ "" →
  (∀ v, v ∈ db → refreshToken ∉ refreshTokens v) →
  post_logout (post_login lib db e pw now).2 (Some refreshToken) =
    (json (Message "Logged out successfully"), save user db)
  ∧ findOne_email (save user db) e = Some user
  ∧ (∀ later, post_refresh lib (save user db) (Some refreshToken) later =
              (sendStatus 403, save user db)).
Proof.
  intros Hfind Hpw refreshToken Hne Hfresh.
  destruct (find_Some_holds _ _ _ Hfind) as [Hin He].
  rewrite (post_login_ok lib _ _ _ now _ Hfind Hpw). cbn [snd]. fold refreshToken.
  set (user1 := set_refreshTokens user (refreshTokens user ++ [refreshToken])).
  assert (Hheld : findOne_refreshTokens (save user1 db) refreshToken = Some user1).
  { apply (find_save_only (λ u, refreshToken ∈ refreshTokens u)).
    - cbn. apply elem_of_app. right. by apply list_elem_of_singleton.
    - by exists user.
    - intros v Hv _. by apply Hfresh. }
  assert (Hback : revoked user1 refreshToken = user).
  { unfold revoked. cbn [refreshTokens user1 set_refreshTokens].
    rewrite filter_app, filter_all.
    - rewrite filter_cons_False by (by intros H; apply H).
      rewrite filter_nil, app_nil_r. by destruct user.
    - intros t Ht ->. by apply (Hfresh user Hin). }
  split_and!.
  - rewrite (post_logout_ok _ _ _ Hne Hheld). by rewrite Hback, save_save.
  - by apply (find_save_same (λ u, email u = e) db user).
  - intros later. rewrite post_refresh_unknown; [by rewrite decide_False|].
    apply findOne_refreshTokens_gone; [by apply Hfresh|].
    intros v Hv _. by apply Hfresh.
Qed.

Lemma login_logout_round_trip_witness :
  post_logout (post_login demo_lib [bob; alice] "alice@example.com" "secret" 9).2
              (Some "refresh.u1.9") =
  (json (Message "Logged out successfully"), [bob; alice]).
Proof.
  destruct (login_logout_round_trip demo_lib [bob; alice] "alice@example.com" "secret"
              9 alice) as (Hround & _); [reflexivity|reflexivity|done| |exact Hround].
  intros v Hv. rewrite !elem_of_cons, elem_of_nil in Hv.
  destruct Hv as [->|[->|[]]]; cbn.
  - apply not_elem_of_nil.
  - by intros ?%list_elem_of_singleton.
Defined.

(** ** Empty lists *)

(** X19. An empty list is refused before the user is looked up by
    POST /cart and DELETE /cart, and by POST /order once the shipping
    identifier resolved: the answer is 400 and nothing is written, for a
    known and for an unknown caller alike.  PUT /order/:orderId has no
    such guard: on an existing order an empty list succeeds, leaves the
    order without items, and stores as total the fee less the discount,
    computed in doubles and exact while both stay within [2 ^ 53]. *)
Theorem empty_lists
    (fakeProductDatabase : gmap string ProductInfo) (db : Db) (uid : ObjectId) :
  post_cart fakeProductDatabase db uid [] = (status_json 400 "Products required", db)
  ∧ delete_cart db uid [] =
      (status_json 400 "productIds must be a non-empty array", db)
  ∧ (∀ couponId shippingId now oid,
       is_Some (lookup_id fakeShippingFeeDatabase shippingId) →
       post_order fakeProductDatabase db uid [] couponId shippingId now oid =
         (status_json 400 "Products required", db))
  ∧ (∀ orderId method fee coupon now user i old,
       findById db uid = Some user →
       list_find (λ o, order_id o = orderId) (orders user) = Some (i, old) →
       put_order fakeProductDatabase db uid orderId [] method fee coupon now =
         (json (Message "Order updated"),
          save (set_orders user
                  (<[i := mkOrder (order_id old) [] method now
                           (double_totalAmount [] fee coupon)
                           fee coupon (order_review old)]> (orders user))) db)
       ∧ (Z.abs (default 0 fee) + Z.abs (default 0 (discount <$> coupon)) ≤ 2 ^ 53 →
          double_totalAmount [] fee coupon =
          Finite (default 0 fee - default 0 (discount <$> coupon)))).
Proof.
  split_and!; try done.
  - intros couponId shippingId now oid [sd Hsd]. unfold post_order.
    assert (property fakeShippingFeeDatabase (show_id shippingId) = Own sd) as ->; [|done].
    destruct shippingId as [k|]; [|done]. by apply property_Own.
  - intros orderId method fee coupon now user i old Hfind Hold. split.
    + apply (put_order_ok fakeProductDatabase _ _ _ [] _ _ _ _ _ _ _ [] Hfind Hold);
        [done|].
      unfold double_totalAmount. cbn [double_sum foldl].
      assert (total_refused
                match fee with
                | Some fee => js_add (Finite 0) (Finite fee)
                | None => Finite 0
                end = false) as Hfee.
      { destruct fee; [apply to_number_defined|done]. }
      destruct coupon as [c|]; [|done]. case_decide; [done|].
      by apply js_sub_defined.
    + intros Hbound. rewrite double_totalAmount_exact; [done|].
      unfold magnitude. cbn [foldr]. lia.
Qed.

Lemma empty_lists_witness :
  put_order demo_catalog [erin] "u5" "o1" [] (Some "自取") (Some 0)
            (Some (mkCoupon "折扣20" 20)) 2000 =
    (json (Message "Order updated"),
     [set_orders erin
        [mkOrder "o1" [] (Some "自取") 2000 (Finite (-20)) (Some 0)
                 (Some (mkCoupon "折扣20" 20)) empty_review]]).
Proof.
  destruct (empty_lists demo_catalog [erin] "u5") as (_ & _ & _ & Hupdate).
  destruct (Hupdate "o1" (Some "自取") (Some 0) (Some (mkCoupon "折扣20" 20)) 2000
              erin 0%nat order1) as [Hput _]; [reflexivity..|].
  rewrite Hput. reflexivity.
Defined.
